(** * mkoffload for ventus-gpgpu: a shallow embedding of
      [gcc/config/riscv/mkoffload.cc] and the properties of its
      search-path parser, toolchain locator, debug-info extractor and
      driver [main]. *)

From Stdlib Require Import ZArith Ascii String.
From Stdlib.Strings Require Import Byte.
From stdpp Require Import base option list strings gmap pretty.

Local Open Scope string_scope.
Local Open Scope list_scope.

(** ** C strings

    A [char *] is modelled by the memory it points at, read forwards: the
    list of characters from the pointer on.  A string ends at its first
    NUL; memory past the modelled region reads as NUL.  Pointer
    arithmetic inside one buffer becomes arithmetic on suffixes.
    [unsigned] and [int] counters are modelled by [nat]: an environment
    string is far shorter than 2^31 characters. *)

Module CStr.

Abbreviation cptr := (list ascii).

Definition NUL : ascii := "000"%char.
Definition colon : ascii := ":"%char.

(** [strchr p c]: the first occurrence of [c] in the string at [p]
    (the terminator counts as part of the string), or a null pointer. *)
Fixpoint strchr (p : cptr) (c : ascii) : option cptr :=
  match p with
  | [] => if decide (c = NUL) then Some [] else None
  | x :: q =>
      if decide (x = c) then Some p
      else if decide (x = NUL) then None
      else strchr q c
  end.

(** [p + 1] *)
Definition ptr_succ (p : cptr) : cptr := tail p.

(** [q - p] for [q] pointing inside the buffer of [p], at or after [p]. *)
Definition ptr_diff (q p : cptr) : nat := length p - length q.

(** The buffer holding the string [s]. *)
Definition c_str (s : list ascii) : cptr := s ++ [NUL].

End CStr.

Import CStr.

(** ** [parse_env_var] *)

(** The counting loop
    [while (curval) { num++; curval = strchr (curval + 1, ':'); }].
    Every round moves [curval] forward, so the length of the buffer
    bounds the number of rounds; [None] stands for a loop that has not
    finished within [fuel] rounds. *)
Fixpoint count_colons (fuel : nat) (curval : option cptr) (num : nat)
  : option nat :=
  match curval with
  | None => Some num
  | Some p =>
      match fuel with
      | O => None
      | S fuel' => count_colons fuel' (strchr (ptr_succ p) colon) (S num)
      end
  end.

(** [nextval = strchr (curval, ':');
     if (nextval == NULL) nextval = strchr (curval, '\0');] *)
Definition next_stop (curval : cptr) : cptr :=
  match strchr curval colon with
  | Some q => q
  | None => default [] (strchr curval NUL)
  end.

(** The filling loop [for (i = 0; i < num; i++)]: [values[i]] receives
    the [l = nextval - curval] characters at [curval]. *)
Fixpoint fill_values (n : nat) (curval nextval : cptr) : list (list ascii) :=
  match n with
  | O => []
  | S n' =>
      let l := ptr_diff nextval curval in
      let value := take l curval in
      let curval' := ptr_succ nextval in
      value :: fill_values n' curval' (next_stop curval')
  end.

(** [parse_env_var (str, &values)] returns [num] and stores the array. *)
Definition parse_env_var (str : cptr) : option (nat * list (list ascii)) :=
  num ← count_colons (S (length str)) (strchr str colon) 1;
  Some (num, fill_values num str (next_stop str)).

(** Joining fields with [':']. *)
Fixpoint join_colon (fs : list (list ascii)) : list ascii :=
  match fs with
  | [] => []
  | [f] => f
  | f :: fs' => f ++ colon :: join_colon fs'
  end.

(** The colon-separated fields of a string, by recursion on the string. *)
Fixpoint split_colon (s : list ascii) : list (list ascii) :=
  match s with
  | [] => [[]]
  | c :: s' =>
      if decide (c = colon) then [] :: split_colon s'
      else match split_colon s' with
           | f :: fs => (c :: f) :: fs
           | [] => [[c]]
           end
  end.

(** The number of occurrences of a character. *)
Fixpoint count_char (c : ascii) (s : list ascii) : nat :=
  match s with
  | [] => 0
  | x :: s' => (if decide (x = c) then 1 else 0) + count_char c s'
  end.

(** A field: no separator and no terminator inside. *)
Definition clean (f : list ascii) : Prop := (colon ∉ f) ∧ (NUL ∉ f).

(** ** ELF images

    The fields that [copy_early_debug_info] reads, decoded from the bytes
    of the file as on a little-endian host.  Offsets and sizes are those
    of <elf.h>. *)

Module Elf.

Local Open Scope Z_scope.

Definition EM_X86_64 : Z := 62.
Definition SHT_RELA : Z := 4.
Definition sizeof_Ehdr : Z := 64.
Definition sizeof_Shdr : Z := 64.
Definition sizeof_Rela : Z := 24.

(** Relocation type codes of the two architectures. *)
Definition R_X86_64_64 : Z := 1.

Definition byte_val (b : byte) : Z := Z.of_N (Byte.to_N b).

(** Little-endian value of a run of bytes. *)
Fixpoint le_val (bs : list byte) : Z :=
  match bs with
  | [] => 0
  | b :: bs' => byte_val b + 256 * le_val bs'
  end.

(** The [len]-byte field at offset [off] of a structure. *)
Definition field (bs : list byte) (off len : nat) : Z :=
  le_val (take len (drop off bs)).

Record Elf64_Ehdr := mkEhdr {
  e_machine : Z;
  e_shoff : Z;
  e_shnum : Z
}.

Record Elf64_Shdr := mkShdr {
  sh_type : Z;
  sh_offset : Z;
  sh_size : Z;
  sh_entsize : Z
}.

Definition decode_Ehdr (bs : list byte) : Elf64_Ehdr :=
  {| e_machine := field bs 18 2;
     e_shoff := field bs 40 8;
     e_shnum := field bs 60 2 |}.

Definition decode_Shdr (bs : list byte) : Elf64_Shdr :=
  {| sh_type := field bs 4 4;
     sh_offset := field bs 24 8;
     sh_size := field bs 32 8;
     sh_entsize := field bs 56 8 |}.


(** [fseek (f, off, SEEK_SET)]: the offset is a [long]; a value with the
    top bit set is negative and is refused. *)
Definition fseek (off : Z) : option Z :=
  if off <? 2 ^ 63 then Some off else None.

(** [fread (buf, size, nmemb, f)] at position [pos] of a stream over
    [data]: the number of complete items read, and their bytes. *)
Definition fread (data : list byte) (pos size nmemb : Z) : Z * list byte :=
  let avail := Z.max 0 (Z.of_nat (length data) - pos) in
  let n := if size =? 0 then 0 else Z.min nmemb (avail / size) in
  (n, take (Z.to_nat (n * size)) (drop (Z.to_nat pos) data)).

(** The array [sections[0 .. n-1]] decoded from the bytes read. *)
Fixpoint decode_sections (n : nat) (bs : list byte) : list Elf64_Shdr :=
  match n with
  | O => []
  | S n' => decode_Shdr bs :: decode_sections n' (drop 64 bs)
  end.

(** The inner loop
    [for (offset = 0; offset < sh_size; offset += sh_entsize)].  Its body
    only forms the address [data + offset] of the record; the offsets it
    visits are kept as a ghost result.  [offset] is a [size_t].  [None]:
    the loop has not ended within [fuel] rounds. *)
Fixpoint reloc_offsets (fuel : nat) (offset size entsize : Z)
  : option (list Z) :=
  if offset <? size then
    match fuel with
    | O => None
    | S fuel' =>
        cons offset <$>
          reloc_offsets fuel' ((offset + entsize) mod 2 ^ 64) size entsize
    end
  else Some [].

(** One round of [for (i = 0; i < e_shnum; i++)]: the record offsets
    visited in section [s], [Some []] when the section is passed over. *)
Definition visit_section (out : list byte) (s : Elf64_Shdr)
  : option (list Z) :=
  if negb (sh_type s =? SHT_RELA) then Some []
  else
    match fseek (sh_offset s) with
    | None => Some []
    | Some pos =>
        if negb ((fread out pos (sh_size s) 1).1 =? 1) then Some []
        else reloc_offsets (S (Z.to_nat (sh_size s))) 0 (sh_size s)
               (sh_entsize s)
    end.

(** The loop over the section headers; the ghost result pairs each
    visited record offset with the index of its section. *)
Fixpoint visit_sections (out : list byte) (i : nat)
    (sections : list Elf64_Shdr) : option (list (nat * Z)) :=
  match sections with
  | [] => Some []
  | s :: rest =>
      offs ← visit_section out s;
      more ← visit_sections out (S i) rest;
      Some (((λ o, (i, o)) <$> offs) ++ more)
  end.



End Elf.

Import Elf.

(** ** The process: file system, environment, libraries *)

Record perms := Perms { p_r : bool; p_w : bool; p_x : bool }.

Inductive node :=
| Dir (p : perms)
| Reg (p : perms) (data : list byte).

Inductive amode := F_OK | R_OK | W_OK | X_OK.

Global Instance amode_eq_dec : EqDecision amode.
Proof. solve_decision. Defined.

Definition node_perms (n : node) : perms :=
  match n with Dir p => p | Reg p _ => p end.

Definition permits (p : perms) (mode : amode) : bool :=
  match mode with
  | F_OK => true
  | R_OK => p_r p
  | W_OK => p_w p
  | X_OK => p_x p
  end.

Definition rw_perms : perms := Perms true true false.

Definition stat (fsys : gmap string node) (name : string) : option node :=
  fsys !! name.

Definition S_ISDIR (n : node) : bool :=
  match n with Dir _ => true | Reg _ _ => false end.

Definition access (fsys : gmap string node) (name : string) (mode : amode)
  : Z :=
  match fsys !! name with
  | Some n => if permits (node_perms n) mode then 0 else -1
  | None => -1
  end%Z.

(** [access_check (name, mode)] *)
Definition access_check (fsys : gmap string node) (name : string)
    (mode : amode) : Z :=
  if decide (mode = X_OK) then
    match stat fsys name with
    | None => (-1)%Z
    | Some st => if S_ISDIR st then (-1)%Z else access fsys name mode
    end
  else access fsys name mode.

(** [fopen (name, "w")]: the file is created or truncated. *)
Definition fopen_w (fsys : gmap string node) (name : string)
  : option (gmap string node) :=
  if decide (name = "") then None
  else
    match fsys !! name with
    | None => Some (<[name := Reg rw_perms []]> fsys)
    | Some (Reg p _) => if p_w p then Some (<[name := Reg p []]> fsys) else None
    | Some (Dir _) => None
    end.

(** [fopen (name, "r+b")]: the contents of an existing file open for
    update. *)
Definition fopen_update (fsys : gmap string node) (name : string)
  : option (list byte) :=
  match fsys !! name with
  | Some (Reg p data) => if p_r p && p_w p then Some data else None
  | _ => None
  end.

(** [open (name, O_RDONLY | O_BINARY)] *)
Definition open_rdonly (fsys : gmap string node) (name : string)
  : option node :=
  match fsys !! name with
  | Some n => if p_r (node_perms n) then Some n else None
  | None => None
  end.

(** Modelled from the spec: libiberty's [unlink_if_ordinary] is not part
    of the source file; "remove any partially written output": the path
    is unlinked when it names an ordinary file. *)
Definition unlink_if_ordinary (name : string) (fsys : gmap string node)
  : gmap string node :=
  match fsys !! name with
  | Some (Reg _ _) => delete name fsys
  | _ => fsys
  end.

(** A [const char *] stored in an argument vector or in the cleanup
    obstack: a string, or the indeterminate value of a variable that was
    never assigned. *)
Inductive arg :=
| Str (s : string)
| Indet.

Global Instance arg_eq_dec : EqDecision arg.
Proof. solve_decision. Defined.

(** What the driver takes from its build configuration, from libc and
    from libiberty and collect-utils: these are parameters of the
    model. *)
Record host := Host {
  (** the macro naming the offload compiler *)
  GCC_INSTALL_NAME : string;
  dirname : string → string;
  basename : string → string;
  (** the value returned by [atexit] *)
  atexit : Z;
  expandargv : gmap string node → list string → list string;
  (** [make_temp_file (suffix)]: the name, and the file system after it *)
  make_temp_file : string → gmap string node → string * gmap string node;
  (** [simple_object_start_read] on the contents: is it a container? *)
  simple_object_start_read : list byte → bool;
  (** the value returned by [simple_object_find_section] *)
  simple_object_find_section : list byte → string → Z;
  (** [simple_object_copy_lto_debug_sections (inobj, outfile, ...)]:
      the file system after it, and the error message if any *)
  simple_object_copy_lto_debug_sections :
    list byte → string → gmap string node → gmap string node * option string;
  (** running a subprocess to completion: exit status, file system *)
  pex_run :
    list arg → gmap string string → gmap string node → Z * gmap string node
}.

Inductive offload_abi_t := OFFLOAD_ABI_UNSET | OFFLOAD_ABI_LP64 | OFFLOAD_ABI_ILP32.

Global Instance offload_abi_eq_dec : EqDecision offload_abi_t.
Proof. solve_decision. Defined.

(** The diagnostics of [fatal_error]. *)
Inductive diag :=
| atexit_failed
| collect_gcc_unset
| compiler_not_found
| bad_offload_abi
| model_flag_required
| cannot_open (name : string)
| subprocess_failed (status : Z).

(** How a piece of the program ends. *)
Inductive result (A : Type) :=
| Ret (a : A)          (* it returns *)
| Fatal (d : diag)     (* [fatal_error] *)
| Abort                (* [gcc_assert], [gcc_unreachable] *)
| Segv                 (* a null pointer is dereferenced *)
| Hang.                (* a loop never ends *)

Arguments Ret {A} a.
Arguments Fatal {A} d.
Arguments Abort {A}.
Arguments Segv {A}.
Arguments Hang {A}.

Record state := State {
  env : gmap string string;
  fs : gmap string node;
  (** the obstack [files_to_cleanup], oldest first *)
  files_to_cleanup : list arg;
  (** functions registered with [atexit] ([true]: [mkoffload_cleanup]) *)
  exit_hooks : list bool;
  (** ghost: the paths probed by [access_check], oldest first *)
  probes : list string;
  (** ghost: the argument vectors of the subprocesses run, oldest first *)
  spawned : list (list arg)
}.

Definition set_env (f : gmap string string → gmap string string) (st : state) : state :=
  State (f (env st)) (fs st) (files_to_cleanup st) (exit_hooks st) (probes st) (spawned st).
Definition set_fs (f : gmap string node → gmap string node) (st : state) : state :=
  State (env st) (f (fs st)) (files_to_cleanup st) (exit_hooks st) (probes st) (spawned st).
Definition set_files_to_cleanup (f : list arg → list arg) (st : state) : state :=
  State (env st) (fs st) (f (files_to_cleanup st)) (exit_hooks st) (probes st) (spawned st).
Definition set_exit_hooks (f : list bool → list bool) (st : state) : state :=
  State (env st) (fs st) (files_to_cleanup st) (f (exit_hooks st)) (probes st) (spawned st).
Definition set_probes (f : list string → list string) (st : state) : state :=
  State (env st) (fs st) (files_to_cleanup st) (exit_hooks st) (f (probes st)) (spawned st).
Definition set_spawned (f : list (list arg) → list (list arg)) (st : state) : state :=
  State (env st) (fs st) (files_to_cleanup st) (exit_hooks st) (probes st) (f (spawned st)).

(** State and failure: the monad of the driver. *)
Definition M (A : Type) : Type := state → state * result A.

Global Instance M_ret : MRet M := λ A a st, (st, Ret a).

Global Instance M_bind : MBind M := λ A B k m st,
  match m st with
  | (st', Ret a) => k a st'
  | (st', Fatal d) => (st', Fatal d)
  | (st', Abort) => (st', Abort)
  | (st', Segv) => (st', Segv)
  | (st', Hang) => (st', Hang)
  end.

Definition fail {A} (r : result A) : M A := λ st, (st, r).
Definition fatal_error {A} (d : diag) : M A := fail (Fatal d).
Definition gets {A} (f : state → A) : M A := λ st, (st, Ret (f st)).
Definition modify (f : state → state) : M unit := λ st, (f st, Ret tt).

Definition getenv (name : string) : M (option string) :=
  gets (λ st, env st !! name).

Definition unsetenv (name : string) : M unit :=
  modify (set_env (delete name)).

(** [putenv ("NAME=value")]; a string without ['='] removes [NAME]. *)
Definition putenv (s : string) : M unit :=
  match String.index 0 "=" s with
  | Some i =>
      modify (set_env (<[substring 0 i s := substring (S i) (String.length s - S i) s]>))
  | None => modify (set_env (delete s))
  end.

(** [xputenv]: the echo under [-v] goes to the diagnostic stream, which
    is not modelled. *)
Definition xputenv (verbose : bool) (s : string) : M unit := putenv s.

(** [obstack_ptr_grow (&files_to_cleanup, p)] *)
Definition register_cleanup (p : arg) : M unit :=
  modify (set_files_to_cleanup (λ l, l ++ [p])).

(** [access_check] on the file system of the process; the probe is
    logged. *)
Definition access_checkM (name : string) (mode : amode) : M Z :=
  λ st, (set_probes (λ l, l ++ [name]) st, Ret (access_check (fs st) name mode)).

(** libiberty's [concat (s1, ..., NULL)]: the arguments up to the first
    null pointer, joined. *)
Fixpoint concat (ss : list (option string)) : string :=
  match ss with
  | Some s :: rest => s +:+ concat rest
  | _ => ""
  end.

(** [startswith (str, prefix)] *)
Definition startswith (str pfx : string) : bool := String.prefix pfx str.

(** [tool_cleanup (from_signal)]: the body is empty. *)
Definition tool_cleanup (from_signal : bool) (st : state) : state := st.

Definition mkoffload_cleanup (st : state) : state := tool_cleanup false st.

(** Modelled from the spec: collect-utils' [fork_execute] is not part of
    the source file; "launches the compile subprocess ..., waits for
    completion; nonzero exit -> Failed". *)
Definition fork_execute (h : host) (argv : list arg) : M unit :=
  λ st,
    let '(status, fs') := pex_run h argv (env st) (fs st) in
    let st' := set_spawned (λ l, l ++ [argv]) (set_fs (λ _, fs') st) in
    if decide (status = 0%Z) then (st', Ret tt)
    else (st', Fatal (subprocess_failed status)).

(** ** [copy_early_debug_info] *)

(** The second half of the function, from [fopen (outfile, "r+b")] on:
    the header and the section headers of the file just written are read
    back and the relocation sections are walked.  Nothing is written:
    the rewriting of the relocation types is commented out in the
    source.  The ghost result lists the records visited. *)
Definition adjust_output (outfile : string) (fsys : gmap string node)
  : result bool * list (nat * Z) :=
  match fopen_update fsys outfile with
  | None => (Ret false, [])
  | Some out =>
      let '(n, hdr) := fread out 0 sizeof_Ehdr 1 in
      if negb (n =? 1)%Z then (Ret true, [])
      else
        let ehdr := decode_Ehdr hdr in
        if negb (e_machine ehdr =? EM_X86_64)%Z then (Abort, [])
        else
          match fseek (e_shoff ehdr) with
          | None => (Ret true, [])
          | Some pos =>
              let '(m, sht) := fread out pos sizeof_Shdr (e_shnum ehdr) in
              if negb (m =? e_shnum ehdr)%Z then (Ret true, [])
              else
                match visit_sections out 0
                        (decode_sections (Z.to_nat (e_shnum ehdr)) sht) with
                | None => (Hang, [])
                | Some visits => (Ret true, visits)
                end
          end
  end.

Definition debug_info_section : string := ".gnu.debuglto_.debug_info".

Definition copy_early_debug_info (h : host) (infile outfile : string)
    (fsys : gmap string node)
  : gmap string node * result bool * list (nat * Z) :=
  match open_rdonly fsys infile with
  | None => (fsys, Ret false, [])
  | Some (Dir _) =>
      (* [simple_object_start_read] cannot read a directory *)
      (fsys, Ret false, [])
  | Some (Reg _ inobj) =>
      if negb (simple_object_start_read h inobj) then (fsys, Ret false, [])
      else if negb (simple_object_find_section h inobj debug_info_section =? 1)%Z
      then (fsys, Ret false, [])
      else
        match simple_object_copy_lto_debug_sections h inobj outfile fsys with
        | (fs1, Some errmsg) => (unlink_if_ordinary outfile fs1, Ret false, [])
        | (fs1, None) =>
            let '(r, visits) := adjust_output outfile fs1 in (fs1, r, visits)
        end
  end.

Definition copy_early_debug_infoM (h : host) (infile outfile : string)
  : M bool :=
  λ st,
    let '(fs', r, _) := copy_early_debug_info h infile outfile (fs st) in
    (set_fs (λ _, fs') st, r).

(** ** [main] *)

(** The variables set by the scan of the argument vector; [save_temps],
    [verbose] and [dumppfx] are the globals of collect-utils. *)
Record options := Options {
  offload_abi : offload_abi_t;
  fopenmp : bool;
  fopenacc : bool;
  fPIC : bool;
  fpic : bool;
  save_temps : bool;
  verbose : bool;
  dumppfx : option string
}.

Definition initial_options : options :=
  Options OFFLOAD_ABI_UNSET false false false false false false None.

Definition set_offload_abi (a : offload_abi_t) (o : options) : options :=
  Options a (fopenmp o) (fopenacc o) (fPIC o) (fpic o) (save_temps o) (verbose o) (dumppfx o).
Definition set_fopenmp (o : options) : options :=
  Options (offload_abi o) true (fopenacc o) (fPIC o) (fpic o) (save_temps o) (verbose o) (dumppfx o).
Definition set_fopenacc (o : options) : options :=
  Options (offload_abi o) (fopenmp o) true (fPIC o) (fpic o) (save_temps o) (verbose o) (dumppfx o).
Definition set_fPIC (o : options) : options :=
  Options (offload_abi o) (fopenmp o) (fopenacc o) true (fpic o) (save_temps o) (verbose o) (dumppfx o).
Definition set_fpic (o : options) : options :=
  Options (offload_abi o) (fopenmp o) (fopenacc o) (fPIC o) true (save_temps o) (verbose o) (dumppfx o).
Definition set_save_temps (o : options) : options :=
  Options (offload_abi o) (fopenmp o) (fopenacc o) (fPIC o) (fpic o) true (verbose o) (dumppfx o).
Definition set_verbose (o : options) : options :=
  Options (offload_abi o) (fopenmp o) (fopenacc o) (fPIC o) (fpic o) (save_temps o) true (dumppfx o).
Definition set_dumppfx (d : option string) (o : options) : options :=
  Options (offload_abi o) (fopenmp o) (fopenacc o) (fPIC o) (fpic o) (save_temps o) (verbose o) d.

(** The loop over the search path:
    [for (i = 0; i < n_paths; i++)] probing [paths[i]/GCC_INSTALL_NAME].
    The result is the driver when [found], none otherwise. *)
Fixpoint search_paths (h : host) (paths : list (list ascii))
  : M (option string) :=
  match paths with
  | [] => mret None
  | p :: rest =>
      let driver := string_of_list_ascii p +:+ "/" +:+ GCC_INSTALL_NAME h in
      r ← access_checkM driver X_OK;
      if decide (r = 0%Z) then mret (Some driver) else search_paths h rest
  end.

(** [gcc_path]: the directory of [collect_gcc], null when it has none. *)
Definition gcc_path_of (h : host) (collect_gcc : string) : option string :=
  if decide (basename h collect_gcc = collect_gcc) then None
  else Some (dirname h collect_gcc).

(** From [dirname] to the test of [found]: the driver, when found. *)
Definition locate_driver (h : host) (collect_gcc : string)
  : M (option string) :=
  match gcc_path_of h collect_gcc with
  | None => mret (Some (GCC_INSTALL_NAME h))
  | Some gcc_path =>
      let driver := gcc_path +:+ "/" +:+ GCC_INSTALL_NAME h in
      r ← access_checkM driver X_OK;
      if decide (r = 0%Z) then mret (Some driver)
      else
        compiler_path ← getenv "COMPILER_PATH";
        match compiler_path with
        | None => fail Segv   (* [parse_env_var (NULL, ...)] *)
        | Some cp =>
            match parse_env_var (c_str (list_ascii_of_string cp)) with
            | None => fail Hang
            | Some (n_paths, paths) => search_paths h (take n_paths paths)
            end
        end
  end.

(** The scan of [argv[1 ..]]. *)
Fixpoint scan_args (args : list string) (o : options) : result options :=
  match args with
  | [] => Ret o
  | a :: rest =>
      if startswith a "-foffload-abi=" then
        let v := substring 14 (String.length a - 14) a in
        if decide (v = "lp64") then
          scan_args rest (set_offload_abi OFFLOAD_ABI_LP64 o)
        else if decide (v = "ilp32") then
          scan_args rest (set_offload_abi OFFLOAD_ABI_ILP32 o)
        else Fatal bad_offload_abi
      else if decide (a = "-fopenmp") then scan_args rest (set_fopenmp o)
      else if decide (a = "-fopenacc") then scan_args rest (set_fopenacc o)
      else if decide (a = "-fPIC") then scan_args rest (set_fPIC o)
      else if decide (a = "-fpic") then scan_args rest (set_fpic o)
      else if decide (a = "-save-temps") then scan_args rest (set_save_temps o)
      else if decide (a = "-v") then scan_args rest (set_verbose o)
      else if decide (a = "-dumpbase") then
        match rest with
        | d :: rest' => scan_args rest' (set_dumppfx (Some d) o)
        | [] => Ret o
        end
      else scan_args rest o
  end.

(** [if (!(fopenacc ^ fopenmp)) fatal_error (...)] *)
Definition check_model (o : options) : result unit :=
  if negb (xorb (fopenacc o) (fopenmp o)) then Fatal model_flag_required
  else Ret tt.

(** [switch (offload_abi)] *)
Definition abi_option (a : offload_abi_t) : result string :=
  match a with
  | OFFLOAD_ABI_LP64 => Ret "-mabi=lp64d"
  | OFFLOAD_ABI_ILP32 => Ret "-mabi=ipl32d"
  | OFFLOAD_ABI_UNSET => Abort
  end.

(** The loop that copies the arguments to the compiler and takes
    [outname] from [-o]. *)
Fixpoint cc_passthrough (args : list string) (outname : option string)
  : list arg * option string :=
  match args with
  | [] => ([], outname)
  | a :: rest =>
      match decide (a = "-o"), rest with
      | left _, out :: rest' => cc_passthrough rest' (Some out)
      | _, _ =>
          let '(l, outname') := cc_passthrough rest outname in
          (Str a :: l, outname')
      end
  end.

(** [strcmp (argv[ix] + strlen (argv[ix]) - 2, ".o") == 0]; for an
    argument shorter than two characters the pointer is before the
    string, and the comparison is taken to fail. *)
Definition is_dot_o (a : string) : bool :=
  let n := String.length a in
  if (n <? 2)%nat then false
  else bool_decide (substring (n - 2) 2 a = ".o").

Definition make_temp_fileM (h : host) (suffix : string) : M string :=
  λ st,
    let '(name, fs') := make_temp_file h suffix (fs st) in
    (set_fs (λ _, fs') st, Ret name).

(** The body of the loop over the objects for one argument that is not
    the operand of [-o]. *)
Definition debug_object (h : host) (o : options) (a : string)
    (dbgcount : nat) (ld_argv : list arg) : M (nat * list arg) :=
  if is_dot_o a then
    '(dbgobj, dbgcount') ←
      (if save_temps o then
         mret (concat [dumppfx o; Some ".mkoffload.dbg";
                       Some (pretty dbgcount); Some ".o"], S dbgcount)
       else
         name ← make_temp_fileM h ".mkoffload.dbg.o"; mret (name, dbgcount));
    register_cleanup (Str dbgobj);;
    ok ← copy_early_debug_infoM h a dbgobj;
    if ok : bool then
      register_cleanup (Str dbgobj);;
      mret (dbgcount', ld_argv ++ [Str dbgobj])
    else
      (* [free (dbgobj)] *)
      mret (dbgcount', ld_argv)
  else mret (dbgcount, ld_argv).

(** [for (int ix = 1; ix != argc; ix++)] over the objects. *)
Fixpoint debug_objects (h : host) (o : options) (args : list string)
    (dbgcount : nat) (ld_argv : list arg) : M (list arg) :=
  match args with
  | [] => mret ld_argv
  | a :: rest =>
      match decide (a = "-o"), rest with
      | left _, _ :: rest' => debug_objects h o rest' dbgcount ld_argv
      | _, _ =>
          '(dbgcount', ld_argv') ← debug_object h o a dbgcount ld_argv;
          debug_objects h o rest dbgcount' ld_argv'
      end
  end.

(** The arguments forwarded to the linker. *)
Definition ld_passthrough (args : list string) : list arg :=
  Str <$> filter (λ a, startswith a "-l" || startswith a "-Wl"
                        || startswith a "-march") args.

Definition bool_args (b : bool) (s : string) : list arg :=
  if b then [Str s] else [].

(** A name for an intermediate file: fixed under [-save-temps], else
    from [make_temp_file]. *)
Definition temp_name (h : host) (o : options) (fixed : string)
    (suffix : string) : M string :=
  if save_temps o then mret fixed else make_temp_fileM h suffix.

(** The branch [if (offload_abi == OFFLOAD_ABI_LP64)].  The variable
    [gcn_o_name] is never assigned.  The linker's argument vector is
    built but no linker is run; it is returned as a ghost result.  The
    five pointers grown on [cc_argv_obstack] after [cc_argv] is finished
    belong to no vector and are freed with the obstack. *)
Definition main_lp64 (h : host) (o : options) (args : list string)
    (driver : string) (cc_argv0 : list arg) : M (list arg) :=
  let mko_dumpbase := concat [dumppfx o; Some ".mkoffload"] in
  let gcn_o_name := Indet in
  gcn_s1_name ← temp_name h o (concat [Some mko_dumpbase; Some ".1.s"])
                  ".mkoffload.1.s";
  gcn_s2_name ← temp_name h o (concat [Some mko_dumpbase; Some ".2.s"])
                  ".mkoffload.2.s";
  register_cleanup (Str gcn_s1_name);;
  register_cleanup (Str gcn_s2_name);;
  register_cleanup gcn_o_name;;
  let cc_argv :=
    cc_argv0 ++ [Str "-dumpdir"; Str ""; Str "-dumpbase"; Str mko_dumpbase;
                 Str "-dumpbase-ext"; Str ""; Str "-o"; Str gcn_s1_name] in
  ld_argv1 ← debug_objects h o args 0 [Str driver];
  let ld_argv :=
    ld_argv1 ++ bool_args (verbose o) "-v"
             ++ bool_args (save_temps o) "-save-temps"
             ++ ld_passthrough args
             ++ [Str "-o"; gcn_o_name] in
  (* Clean up unhelpful environment variables.  *)
  execpath ← getenv "GCC_EXEC_PREFIX";
  cpath ← getenv "COMPILER_PATH";
  lpath ← getenv "LIBRARY_PATH";
  unsetenv "GCC_EXEC_PREFIX";;
  unsetenv "COMPILER_PATH";;
  unsetenv "LIBRARY_PATH";;
  omp_requires_file ←
    temp_name h o (concat [dumppfx o; Some ".mkoffload.omp_requires"])
      ".mkoffload.omp_requires";
  register_cleanup (Str omp_requires_file);;
  (* Run the compiler pass.  *)
  xputenv (verbose o)
    (concat [Some "GCC_OFFLOAD_OMP_REQUIRES_FILE="; Some omp_requires_file]);;
  fork_execute h cc_argv;;
  unsetenv "GCC_OFFLOAD_OMP_REQUIRES_FILE";;
  mret ld_argv.

(** From the [switch (offload_abi)] to the end of [main]. *)
Definition main_build (h : host) (o : options) (args : list string)
    (driver : string) : M Z :=
  abi ← fail (abi_option (offload_abi o));
  let '(passed, outname) := cc_passthrough args None in
  let cc_argv0 :=
    [Str driver; Str "-S"] ++ bool_args (save_temps o) "-save-temps"
      ++ bool_args (verbose o) "-v"
      ++ [Str abi; Str "-xlto"] ++ bool_args (fopenmp o) "-mgomp"
      ++ passed in
  let o := match dumppfx o with
           | Some _ => o
           | None => set_dumppfx outname o
           end in
  let gcn_dumpbase := concat [dumppfx o; Some ".c"] in
  gcn_cfile_name ← temp_name h o gcn_dumpbase ".c";
  register_cleanup (Str gcn_cfile_name);;
  cfile ← gets (λ st, fopen_w (fs st) gcn_cfile_name);
  match cfile with
  | None => fatal_error (cannot_open gcn_cfile_name)
  | Some fs' =>
      modify (set_fs (λ _, fs'));;
      (if decide (offload_abi o = OFFLOAD_ABI_LP64) then
         main_lp64 h o args driver cc_argv0;; mret tt
       else mret tt);;
      mret (-1)%Z
  end.

(** From the start of [main] to the check of the programming-model
    flags: the options, the arguments [argv[1 ..]] and the driver. *)
Definition main_checks (h : host) (argv : list string)
  : M (options * list string * string) :=
  (if decide (atexit h = 0%Z)
   then modify (set_exit_hooks (λ l, l ++ [true]))
   else fatal_error atexit_failed);;
  collect_gcc ← getenv "COLLECT_GCC";
  match collect_gcc with
  | None => fatal_error collect_gcc_unset
  | Some collect_gcc =>
      found ← locate_driver h collect_gcc;
      match found with
      | None => fatal_error compiler_not_found
      | Some driver =>
          argv ← gets (λ st, expandargv h (fs st) argv);
          o ← fail (scan_args (tail argv) initial_options);
          fail (check_model o);;
          mret (o, tail argv, driver)
      end
  end.

Definition main (h : host) (argv : list string) : M Z :=
  '(o, args, driver) ← main_checks h argv;
  main_build h o args driver.

(** ** The process *)

Definition FATAL_EXIT_CODE : Z := 1.
Definition ICE_EXIT_CODE : Z := 4.

(** The exit status seen by the parent; none when the process is killed
    by a signal or never ends. *)
Definition exit_status (r : result Z) : option Z :=
  match r with
  | Ret v => Some (v mod 256)%Z
  | Fatal _ => Some FATAL_EXIT_CODE
  | Abort => Some ICE_EXIT_CODE
  | Segv | Hang => None
  end.

(** [exit] runs the functions registered with [atexit]. *)
Definition run_exit_hooks (st : state) : state :=
  foldr (λ (hook : bool) st, if hook then mkoffload_cleanup st else st)
    st (exit_hooks st).

(** The whole run of the program: the state it leaves behind and its
    exit status. *)
Definition run (h : host) (argv : list string) (st : state)
  : state * option Z :=
  let '(st', r) := main h argv st in
  match exit_status r with
  | Some status => (run_exit_hooks st', Some status)
  | None => (st', None)
  end.

(** ** Notions used to state the properties *)

(** The arguments in option position: the operand of [-dumpbase] is
    not one of them. *)
Fixpoint option_tokens (args : list string) : list string :=
  match args with
  | [] => []
  | a :: rest =>
      a :: match decide (a = "-dumpbase"), rest with
           | left _, _ :: rest' => option_tokens rest'
           | _, _ => option_tokens rest
           end
  end.

(** The option [flag] is given in [args]. *)
Definition given (flag : string) (args : list string) : bool :=
  bool_decide (flag ∈ option_tokens args).

(** A registered path that names a file of [fsys]. *)
Definition still_there (fsys : gmap string node) (p : arg) : bool :=
  match p with
  | Str name => bool_decide (is_Some (fsys !! name))
  | Indet => false
  end.

(** A path that exists, is not a directory and may be executed by the
    process. *)
Definition acceptable (fsys : gmap string node) (name : string) : bool :=
  match fsys !! name with
  | Some (Reg p _) => p_x p
  | _ => false
  end.

(** The path probed for a directory of the search path. *)
Definition candidate (h : host) (dir : list ascii) : string :=
  string_of_list_ascii dir +:+ "/" +:+ GCC_INSTALL_NAME h.



(** Reading back the output: did [fread] deliver the header, which
    header, and did [fseek] and [fread] deliver the section headers. *)
Definition header_read (out : list byte) : bool :=
  ((fread out 0 sizeof_Ehdr 1).1 =? 1)%Z.

Definition output_header (out : list byte) : Elf64_Ehdr :=
  decode_Ehdr (fread out 0 sizeof_Ehdr 1).2.

Definition section_headers_read (out : list byte) : bool :=
  match fseek (e_shoff (output_header out)) with
  | None => false
  | Some pos =>
      ((fread out pos sizeof_Shdr (e_shnum (output_header out))).1
         =? e_shnum (output_header out))%Z
  end.

(** ** Concrete hosts and inputs

    Instances of the parameters, used to run the model. *)

Module Sample.

Definition byte_of_Z (v : Z) : byte :=
  default "000"%byte (Byte.of_N (Z.to_N (v mod 256))).

(** [n] bytes, least significant first. *)
Fixpoint le_bytes (n : nat) (v : Z) : list byte :=
  match n with
  | O => []
  | S n' => byte_of_Z v :: le_bytes n' (v / 256)
  end.

Definition zeros (n : nat) : list byte := replicate n "000"%byte.

(** An [Elf64_Ehdr]. *)
Definition ehdr_bytes (machine shoff shnum : Z) : list byte :=
  zeros 18 ++ le_bytes 2 machine ++ zeros 20 ++ le_bytes 8 shoff
    ++ zeros 12 ++ le_bytes 2 shnum ++ zeros 2.

(** An [Elf64_Shdr]. *)
Definition shdr_bytes (type offset size entsize : Z) : list byte :=
  zeros 4 ++ le_bytes 4 type ++ zeros 16 ++ le_bytes 8 offset
    ++ le_bytes 8 size ++ zeros 16 ++ le_bytes 8 entsize.

(** An [Elf64_Rela] with [r_info = ELF64_R_INFO (sym, type)]. *)
Definition rela_bytes (offset sym type addend : Z) : list byte :=
  le_bytes 8 offset ++ le_bytes 4 type ++ le_bytes 4 sym ++ le_bytes 8 addend.

(** An x86-64 object: header, two section headers (the null section and
    one relocation-with-addend section), and one relocation record of
    type [R_X86_64_64] against symbol 1. *)
Definition x86_object : list byte :=
  ehdr_bytes EM_X86_64 64 2
    ++ shdr_bytes 0 0 0 0 ++ shdr_bytes SHT_RELA 192 24 24
    ++ rela_bytes 16 1 R_X86_64_64 0.

(** A header alone, with another value in [e_machine] (243: RISC-V) and
    a section header table that lies beyond the end of the file. *)
Definition riscv_truncated_object : list byte :=
  ehdr_bytes 243 4096 2.

(** The part of a path after its last slash, and the part before it. *)
Fixpoint last_slash (s : list ascii) : option (list ascii * list ascii) :=
  match s with
  | [] => None
  | c :: s' =>
      match last_slash s' with
      | Some (d, b) => Some (c :: d, b)
      | None => if decide (c = "/"%char) then Some ([], s') else None
      end
  end.

Definition path_dirname (path : string) : string :=
  match last_slash (list_ascii_of_string path) with
  | Some (d, _) => string_of_list_ascii d
  | None => "."
  end.

Definition path_basename (path : string) : string :=
  match last_slash (list_ascii_of_string path) with
  | Some (_, b) => string_of_list_ascii b
  | None => path
  end.

(** Temporary names are numbered by the size of the file system; the
    file is created empty. *)
Definition numbered_temp_file (suffix : string) (fsys : gmap string node)
  : string * gmap string node :=
  let name := "/tmp/cc" +:+ pretty (size fsys) +:+ suffix in
  (name, <[name := Reg rw_perms []]> fsys).

(** A host on which every regular file is a container; [has_debug]
    tells whether the debug section is found; [copy] stands for
    [simple_object_copy_lto_debug_sections]; the subprocess exits with
    [status] and leaves the file system as it was. *)
Definition host_with_copy
    (copy : list byte → string → gmap string node
            → gmap string node * option string)
    (has_debug : bool) (status : Z) : host :=
  {| GCC_INSTALL_NAME := "riscv32-unknown-elf-gcc";
     dirname := path_dirname;
     basename := path_basename;
     atexit := 0;
     expandargv := λ _ argv, argv;
     make_temp_file := numbered_temp_file;
     simple_object_start_read := λ _, true;
     simple_object_find_section := λ _ _, if has_debug then 1%Z else 0%Z;
     simple_object_copy_lto_debug_sections := copy;
     pex_run := λ _ _ fsys, (status, fsys) |}.

(** The copy writes the input object to the output path. *)
Definition whole_copy (inobj : list byte) (outfile : string)
    (fsys : gmap string node) : gmap string node * option string :=
  (<[outfile := Reg rw_perms inobj]> fsys, None).

(** The copy fails after writing the first sixteen bytes. *)
Definition failing_copy (inobj : list byte) (outfile : string)
    (fsys : gmap string node) : gmap string node * option string :=
  (<[outfile := Reg rw_perms (take 16 inobj)]> fsys, Some "write error").

Definition the_host (has_debug : bool) (status : Z) : host :=
  host_with_copy whole_copy has_debug status.

Definition exe : node := Reg (Perms true false true) [].

Definition the_env : gmap string string :=
  <["COLLECT_GCC" := "/usr/bin/gcc"]>
  (<["COMPILER_PATH" := "/opt/a:/opt/b"]>
  (<["GCC_EXEC_PREFIX" := "/usr/lib/gcc/"]>
  (<["LIBRARY_PATH" := "/usr/lib"]> ∅))).

Definition the_fs : gmap string node :=
  <["/usr/bin/riscv32-unknown-elf-gcc" := exe]>
  (<["in.o" := Reg rw_perms x86_object]> ∅).

(** An x86-64 header alone, its section header table out of reach. *)
Definition x86_truncated_object : list byte :=
  ehdr_bytes EM_X86_64 4096 2.

Definition truncated_fs : gmap string node :=
  <["rv.o" := Reg rw_perms riscv_truncated_object]>
  (<["x86.o" := Reg rw_perms x86_truncated_object]> ∅).

Definition the_state : state :=
  State the_env the_fs [] [] [] [].

(** A state in which the sibling of the reference compiler is missing
    and the search path has three entries: a directory of that name,
    then two executables. *)
Definition search_state : state :=
  State (<["COMPILER_PATH" := "/opt/a:/opt/b:/opt/c"]> the_env)
    (<["/opt/a/riscv32-unknown-elf-gcc" := Dir (Perms true true true)]>
     (<["/opt/b/riscv32-unknown-elf-gcc" := exe]>
      (<["/opt/c/riscv32-unknown-elf-gcc" := exe]> ∅)))
    [] [] [] [].

Definition the_argv : list string :=
  ["mkoffload"; "-foffload-abi=lp64"; "-fopenmp"; "in.o"; "-o"; "out.img"].



End Sample.

(** ** Notions used to state further properties *)

(** The argument after [a] at which the scan goes on. *)
Definition scan_next (a : string) (rest : list string) : list string :=
  match decide (a = "-dumpbase"), rest with
  | left _, _ :: rest' => rest'
  | _, _ => rest
  end.

(** The value of a [-foffload-abi=] option. *)
Definition abi_value (a : string) : string :=
  substring 14 (String.length a - 14) a.

(** A [-foffload-abi=] option whose value is neither [lp64] nor
    [ilp32]. *)
Definition bad_abi_option (a : string) : bool :=
  startswith a "-foffload-abi="
  && negb (bool_decide (abi_value a = "lp64")
           || bool_decide (abi_value a = "ilp32")).

Definition has_bad_abi (args : list string) : bool :=
  existsb bad_abi_option (option_tokens args).

(** The ABI after one more option. *)
Definition abi_step (a0 : offload_abi_t) (t : string) : offload_abi_t :=
  if startswith t "-foffload-abi=" then
    if decide (abi_value t = "lp64") then OFFLOAD_ABI_LP64
    else if decide (abi_value t = "ilp32") then OFFLOAD_ABI_ILP32
    else a0
  else a0.

(** The ABI selected by the options: the last one given wins. *)
Definition abi_of (toks : list string) (a0 : offload_abi_t) : offload_abi_t :=
  foldl abi_step a0 toks.

(** What the scan has set when it returns [o], started from [o0]. *)
Definition scan_post (args : list string) (o0 o : options) : Prop :=
  fopenmp o = fopenmp o0 || given "-fopenmp" args
  ∧ fopenacc o = fopenacc o0 || given "-fopenacc" args
  ∧ fPIC o = fPIC o0 || given "-fPIC" args
  ∧ fpic o = fpic o0 || given "-fpic" args
  ∧ save_temps o = save_temps o0 || given "-save-temps" args
  ∧ verbose o = verbose o0 || given "-v" args
  ∧ offload_abi o = abi_of (option_tokens args) (offload_abi o0).

(** A step that leaves the environment, the exit hooks, the probes and
    the subprocesses as they were, and only adds to the cleanup list
    (the file system may change). *)
Definition quiet (st st' : state) : Prop :=
  env st' = env st
  ∧ spawned st' = spawned st
  ∧ exit_hooks st' = exit_hooks st
  ∧ probes st' = probes st
  ∧ files_to_cleanup st `prefix_of` files_to_cleanup st'.

(** A step that only adds to the lists kept in the state. *)
Definition grows (st st' : state) : Prop :=
  files_to_cleanup st `prefix_of` files_to_cleanup st'
  ∧ spawned st `prefix_of` spawned st'
  ∧ exit_hooks st `prefix_of` exit_hooks st'
  ∧ probes st `prefix_of` probes st'.

(** The failure [r1] of a step is the failure [r] of the whole. *)
Definition same_failure {A B} (r1 : result A) (r : result B) : Prop :=
  match r1, r with
  | Fatal d, Fatal d' => d = d'
  | Abort, Abort | Segv, Segv | Hang, Hang => True
  | _, _ => False
  end.

(** The host [h] with another [make_temp_file]. *)
Definition with_make_temp_file
    (f : string → gmap string node → string * gmap string node) (h : host)
  : host :=
  {| GCC_INSTALL_NAME := GCC_INSTALL_NAME h;
     dirname := dirname h;
     basename := basename h;
     atexit := atexit h;
     expandargv := expandargv h;
     make_temp_file := f;
     simple_object_start_read := simple_object_start_read h;
     simple_object_find_section := simple_object_find_section h;
     simple_object_copy_lto_debug_sections :=
       simple_object_copy_lto_debug_sections h;
     pex_run := pex_run h |}.


(** A state in which the offload compiler is nowhere to be found, and
    the same without [COMPILER_PATH]. *)
Definition lost_state : state :=
  State Sample.the_env (<["in.o" := Reg rw_perms Sample.x86_object]> ∅)
    [] [] [] [].

Definition no_path_state : state :=
  State (delete "COMPILER_PATH" Sample.the_env)
    (<["in.o" := Reg rw_perms Sample.x86_object]> ∅) [] [] [] [].

(** Another way of naming temporary files. *)
Definition other_temp_file (suffix : string) (fsys : gmap string node)
  : string * gmap string node :=
  ("/var/tmp/x" +:+ suffix, fsys).

Definition save_temps_argv : list string :=
  ["mkoffload"; "-foffload-abi=lp64"; "-fopenmp"; "-save-temps"; "in.o";
   "-o"; "out.img"].

Section parse_env_var_facts.

Implicit Types (s f : list ascii) (fs : list (list ascii)) (rest : cptr).

Lemma strchr_skip f c p :
  c ∉ f → NUL ∉ f → strchr (f ++ p) c = strchr p c.
Proof.
  induction f as [|x f IH]; simpl; [done|].
  intros Hc Hn. apply not_elem_of_cons in Hc as [? ?].
  apply not_elem_of_cons in Hn as [? ?].
  rewrite !decide_False by congruence. auto.
Qed.

Lemma strchr_hit c p : strchr (c :: p) c = Some (c :: p).
Proof. simpl. by rewrite decide_True. Qed.

Lemma strchr_at_nul c p : c ≠ NUL → strchr (NUL :: p) c = None.
Proof.
  intros. simpl. repeat case_decide; congruence.
Qed.

Lemma next_stop_colon f p :
  colon ∉ f → NUL ∉ f → next_stop (f ++ colon :: p) = colon :: p.
Proof.
  intros. unfold next_stop. by rewrite strchr_skip, strchr_hit.
Qed.

Lemma next_stop_nul f p :
  colon ∉ f → NUL ∉ f → next_stop (f ++ NUL :: p) = NUL :: p.
Proof.
  intros. unfold next_stop.
  rewrite strchr_skip, strchr_at_nul by done.
  by rewrite strchr_skip, strchr_hit.
Qed.

Lemma ptr_diff_app f p : ptr_diff p (f ++ p) = length f.
Proof. unfold ptr_diff. rewrite length_app. lia. Qed.

Lemma join_colon_cons f f' fs :
  join_colon (f :: f' :: fs) = f ++ colon :: join_colon (f' :: fs).
Proof. done. Qed.

(** The filling loop reads back exactly the fields. *)
Lemma fill_values_join fs rest :
  fs ≠ [] → Forall clean fs →
  let str := join_colon fs ++ NUL :: rest in
  fill_values (length fs) str (next_stop str) = fs.
Proof.
  induction fs as [|f0 fs IH]; [done|].
  intros _ Hcl. apply Forall_cons in Hcl as [[Hc0 Hn0] Hcl].
  destruct fs as [|f1 fs]; intros str; subst str.
  - simpl. rewrite next_stop_nul by done.
    by rewrite ptr_diff_app, take_app_length.
  - rewrite join_colon_cons, <-app_assoc. cbn [app length fill_values].
    rewrite next_stop_colon by done.
    rewrite ptr_diff_app, take_app_length. f_equal.
    unfold ptr_succ; cbn [tail]. by apply IH.
Qed.

Lemma count_colons_None fuel num : count_colons fuel None num = Some num.
Proof. by destruct fuel. Qed.

(** The counting loop counts one field per colon. *)
Lemma count_colons_join fs rest fuel num f :
  Forall clean fs → clean f →
  length (join_colon fs) < fuel →
  count_colons fuel (strchr (f ++ join_colon fs ++ NUL :: rest) colon) num
  = Some (num + (length fs - 1)).
Proof.
  revert fuel num f. induction fs as [|f0 fs IH]; intros fuel num f Hcl [Hc Hn] Hfuel.
  - simpl. rewrite strchr_skip, strchr_at_nul by done.
    rewrite count_colons_None. f_equal; lia.
  - apply Forall_cons in Hcl as [[Hc0 Hn0] Hcl].
    destruct fs as [|f1 fs].
    + simpl. rewrite app_assoc, strchr_skip, strchr_at_nul; try done.
      * rewrite count_colons_None. simpl. f_equal; lia.
      * rewrite not_elem_of_app; done.
      * rewrite not_elem_of_app; done.
    + rewrite join_colon_cons in *. rewrite <-app_assoc. cbn [app].
      rewrite app_assoc, strchr_skip, strchr_hit.
      2,3: rewrite not_elem_of_app; done.
      rewrite length_app in Hfuel. cbn [length] in Hfuel.
      destruct fuel as [|fuel]; [lia|]. cbn [count_colons].
      unfold ptr_succ; cbn [tail].
      change (join_colon (f1 :: fs) ++ NUL :: rest)
        with ([] ++ join_colon (f1 :: fs) ++ NUL :: rest).
      rewrite (IH fuel (S num) []); [|done|split; apply not_elem_of_nil|lia].
      f_equal. cbn [length]. lia.
Qed.

Lemma split_colon_nonempty s : split_colon s ≠ [].
Proof.
  destruct s as [|c s]; simpl; [done|].
  case_decide; [done|]. by destruct (split_colon s).
Qed.

Lemma split_colon_join s : join_colon (split_colon s) = s.
Proof.
  induction s as [|c s IH]; simpl; [done|].
  pose proof (split_colon_nonempty s) as Hne.
  case_decide as Hc.
  - subst c. destruct (split_colon s) as [|f fs] eqn:E; [done|].
    rewrite join_colon_cons. cbn [app]. by rewrite IH.
  - destruct (split_colon s) as [|f [|f' fs]] eqn:E; [done| |].
    + simpl in *. by rewrite IH.
    + rewrite join_colon_cons in IH |- *. cbn [app]. by rewrite IH.
Qed.

Lemma split_colon_length s :
  length (split_colon s) = S (count_char colon s).
Proof.
  induction s as [|c s IH]; simpl; [done|].
  pose proof (split_colon_nonempty s) as Hne.
  case_decide; simpl.
  - by rewrite IH.
  - destruct (split_colon s); [done|]. simpl in *. lia.
Qed.

Lemma split_colon_clean s : NUL ∉ s → Forall clean (split_colon s).
Proof.
  induction s as [|c s IH]; simpl; intros Hn.
  - repeat constructor; apply not_elem_of_nil.
  - apply not_elem_of_cons in Hn as [Hc Hn]. specialize (IH Hn).
    pose proof (split_colon_nonempty s) as Hne.
    case_decide.
    + constructor; [|done]. split; apply not_elem_of_nil.
    + destruct (split_colon s) as [|f fs]; [done|].
      apply Forall_cons in IH as [[? ?] ?].
      constructor; [|done].
      split; apply not_elem_of_cons; split; congruence.
Qed.

(** The counting loop ends within its fuel on any buffer. *)
Lemma strchr_shorter p c q : strchr p c = Some q → (length q ≤ length p)%nat.
Proof.
  revert q. induction p as [|x p IH]; simpl; intros q.
  - case_decide; [|done]. by intros [= <-].
  - case_decide; [by intros [= <-]|].
    case_decide; [done|]. intros Hq. apply IH in Hq. lia.
Qed.

Lemma count_colons_total fuel p num :
  (length p < fuel)%nat → is_Some (count_colons fuel (Some p) num).
Proof.
  revert p num. induction fuel as [|fuel IH]; intros p num Hlt; [lia|].
  cbn [count_colons].
  destruct (strchr (ptr_succ p) colon) as [q|] eqn:E.
  - apply IH. destruct p as [|x p]; [done|].
    apply strchr_shorter in E. simpl in *. lia.
  - rewrite count_colons_None. eauto.
Qed.

Lemma parse_env_var_total (str : cptr) : is_Some (parse_env_var str).
Proof.
  unfold parse_env_var.
  destruct (strchr str colon) as [q|] eqn:E.
  - apply strchr_shorter in E.
    destruct (count_colons_total (S (length str)) q 1) as [n Hn]; [lia|].
    rewrite Hn. simpl. eauto.
  - rewrite count_colons_None. simpl. eauto.
Qed.

(** What the function returns on a terminated string. *)
Lemma parse_env_var_split s rest :
  NUL ∉ s →
  parse_env_var (s ++ NUL :: rest)
  = Some (length (split_colon s), split_colon s).
Proof.
  intros Hn.
  pose proof (split_colon_clean s Hn) as Hcl.
  pose proof (split_colon_nonempty s) as Hne.
  pose proof (split_colon_join s) as Hj.
  unfold parse_env_var.
  pose proof (count_colons_join (split_colon s) rest
                (S (length (s ++ NUL :: rest))) 1 [] Hcl) as Hc.
  rewrite Hj, app_nil_l in Hc. rewrite Hc.
  - replace (1 + (length (split_colon s) - 1)) with
      (length (split_colon s))
      by (destruct (split_colon s); [done|simpl; lia]).
    cbn [mbind option_bind]. do 2 f_equal.
    pose proof (fill_values_join (split_colon s) rest Hne Hcl) as Hf.
    cbv zeta in Hf. by rewrite Hj in Hf.
  - split; apply not_elem_of_nil.
  - rewrite length_app. simpl. lia.
Qed.

End parse_env_var_facts.

(** ** The monad *)

Section monad_facts.

Context {A B : Type}.
Implicit Types (m : M A) (k : A → M B) (st : state).

Lemma bind_Ret m k st st1 a :
  m st = (st1, Ret a) → (m ≫= k) st = k a st1.
Proof. unfold mbind, M_bind. by intros ->. Qed.

Lemma bind_Ret_inv m k st st' b :
  (m ≫= k) st = (st', Ret b) →
  ∃ st1 a, m st = (st1, Ret a) ∧ k a st1 = (st', Ret b).
Proof.
  unfold mbind, M_bind. destruct (m st) as [st1 [a| | | |]]; try done.
  eauto.
Qed.

End monad_facts.

(** Inverts a chain of binds that ends in a return. *)
Ltac bind_inv H :=
  repeat
    (let st1 := fresh "st" in
     let a := fresh "a" in
     let H1 := fresh "Hstep" in
     apply bind_Ret_inv in H as (st1 & a & H1 & H)).

Lemma set_probes_app (a b : list string) (st : state) :
  set_probes (λ l, l ++ b) (set_probes (λ l, l ++ a) st)
  = set_probes (λ l, l ++ a ++ b) st.
Proof. destruct st. unfold set_probes. simpl. by rewrite app_assoc. Qed.

Lemma set_probes_nil (st : state) : set_probes (λ l, l ++ []) st = st.
Proof. destruct st. unfold set_probes. simpl. by rewrite app_nil_r. Qed.

(** ** The toolchain locator *)

Section locator.

Variable h : host.
Implicit Types (st : state) (fsys : gmap string node).

(** [access_check (name, X_OK)] succeeds exactly on the paths that
    exist, are not directories and are executable. *)
Lemma access_check_acceptable fsys name :
  access_check fsys name X_OK = 0%Z ↔ acceptable fsys name = true.
Proof.
  unfold access_check, acceptable, stat, access. simpl.
  destruct (fsys !! name) as [[p|p data]|]; simpl; try done.
  by destruct (p_x p).
Qed.

Lemma acceptable_stat fsys name :
  acceptable fsys name = true ↔
  ∃ n, stat fsys name = Some n ∧ S_ISDIR n = false
       ∧ permits (node_perms n) X_OK = true.
Proof.
  unfold acceptable, stat. split.
  - destruct (fsys !! name) as [[p|p data]|]; try done. eauto.
  - intros (n & -> & Hd & Hx). by destruct n.
Qed.

Lemma access_checkM_probe name st :
  access_checkM name X_OK st
  = (set_probes (λ l, l ++ [name]) st,
     Ret (access_check (fs st) name X_OK)).
Proof. done. Qed.

Lemma search_paths_miss paths st :
  Forall (λ d, acceptable (fs st) (candidate h d) = false) paths →
  search_paths h paths st
  = (set_probes (λ l, l ++ (candidate h <$> paths)) st, Ret None).
Proof.
  revert st. induction paths as [|d paths IH]; intros st Hall.
  - simpl. by rewrite set_probes_nil.
  - apply Forall_cons in Hall as [Hd Hall]. cbn [search_paths].
    erewrite bind_Ret by apply access_checkM_probe.
    fold (candidate h d).
    case_decide as Hr.
    { apply access_check_acceptable in Hr. congruence. }
    rewrite IH by done. by rewrite set_probes_app.
Qed.

(** The first acceptable candidate wins; nothing after it is probed. *)
Lemma search_paths_first before dir after st :
  Forall (λ d, acceptable (fs st) (candidate h d) = false) before →
  acceptable (fs st) (candidate h dir) = true →
  search_paths h (before ++ dir :: after) st
  = (set_probes (λ l, l ++ (candidate h <$> before) ++ [candidate h dir]) st,
     Ret (Some (candidate h dir))).
Proof.
  revert st. induction before as [|d before IH]; intros st Hall Hdir.
  - cbn [app search_paths fmap list_fmap].
    erewrite bind_Ret by apply access_checkM_probe.
    fold (candidate h dir).
    apply access_check_acceptable in Hdir. by rewrite decide_True.
  - apply Forall_cons in Hall as [Hd Hall]. cbn [app search_paths].
    erewrite bind_Ret by apply access_checkM_probe.
    fold (candidate h d).
    case_decide as Hr.
    { apply access_check_acceptable in Hr. congruence. }
    rewrite IH by done. by rewrite set_probes_app.
Qed.

(** Whatever the loop returns was probed from the state it started in
    and is acceptable. *)
Lemma search_paths_sound paths st st' driver :
  search_paths h paths st = (st', Ret (Some driver)) →
  acceptable (fs st) driver = true ∧ fs st' = fs st.
Proof.
  revert st. induction paths as [|d paths IH]; intros st; [done|].
  cbn [search_paths].
  erewrite bind_Ret by apply access_checkM_probe.
  case_decide as Hr.
  - intros [= <- <-]. split; [|done]. by apply access_check_acceptable.
  - intros Hs. apply IH in Hs as [? ?]. by destruct st.
Qed.

Lemma search_paths_probed paths st st' driver :
  search_paths h paths st = (st', Ret (Some driver)) → driver ∈ probes st'.
Proof.
  revert st. induction paths as [|d paths IH]; intros st; [done|].
  cbn [search_paths].
  erewrite bind_Ret by apply access_checkM_probe.
  case_decide as Hr.
  - intros [= <- <-]. simpl. set_solver.
  - apply IH.
Qed.

Lemma split_colon_take cp :
  NUL ∉ list_ascii_of_string cp →
  parse_env_var (c_str (list_ascii_of_string cp))
  = Some (length (split_colon (list_ascii_of_string cp)),
          split_colon (list_ascii_of_string cp)).
Proof.
  intros Hn. unfold c_str. by apply parse_env_var_split.
Qed.

End locator.

(** ** The debug-info extractor *)

Section extractor.

Variable h : host.
Implicit Types (fsys : gmap string node) (infile outfile : string).

(** The read-back half neither creates nor changes a file: it is a
    function of the file system alone, and its caller keeps the file
    system of the copy. *)
Lemma copy_early_debug_info_copied infile outfile fsys p inobj
    (fs1 : gmap string node) :
  open_rdonly fsys infile = Some (Reg p inobj) →
  simple_object_start_read h inobj = true →
  simple_object_find_section h inobj debug_info_section = 1%Z →
  simple_object_copy_lto_debug_sections h inobj outfile fsys = (fs1, None) →
  copy_early_debug_info h infile outfile fsys
  = (fs1, (adjust_output outfile fs1).1, (adjust_output outfile fs1).2).
Proof.
  intros Ho Hs Hf Hc. unfold copy_early_debug_info.
  rewrite Ho, Hs, Hf, Hc. simpl. by destruct (adjust_output outfile fs1).
Qed.


Lemma adjust_output_no_header outfile fsys out :
  fopen_update fsys outfile = Some out →
  header_read out = false →
  adjust_output outfile fsys = (Ret true, []).
Proof.
  unfold adjust_output, header_read. intros -> Hh.
  destruct (fread out 0 sizeof_Ehdr 1) as [n hdr]. cbn [fst] in Hh.
  by rewrite Hh.
Qed.

Lemma adjust_output_no_sections outfile fsys out :
  fopen_update fsys outfile = Some out →
  header_read out = true →
  e_machine (output_header out) = EM_X86_64 →
  section_headers_read out = false →
  adjust_output outfile fsys = (Ret true, []).
Proof.
  unfold adjust_output, header_read, section_headers_read, output_header.
  intros -> Hh Hm Hs.
  destruct (fread out 0 sizeof_Ehdr 1) as [n hdr]. cbn [fst snd] in *.
  rewrite Hh, Hm, Z.eqb_refl. cbn [negb].
  destruct (fseek (e_shoff (decode_Ehdr hdr))) as [pos|]; [|done].
  destruct (fread out pos sizeof_Shdr (e_shnum (decode_Ehdr hdr)))
    as [m sht]. cbn [fst] in Hs. by rewrite Hs.
Qed.

Lemma adjust_output_wrong_machine outfile fsys out :
  fopen_update fsys outfile = Some out →
  header_read out = true →
  e_machine (output_header out) ≠ EM_X86_64 →
  adjust_output outfile fsys = (Abort, []).
Proof.
  unfold adjust_output, header_read, output_header. intros -> Hh Hm.
  destruct (fread out 0 sizeof_Ehdr 1) as [n hdr]. cbn [fst snd] in *.
  rewrite Hh. cbn [negb]. apply Z.eqb_neq in Hm. by rewrite Hm.
Qed.

Lemma unlink_if_ordinary_gone outfile (fs1 : gmap string node) p data :
  unlink_if_ordinary outfile fs1 !! outfile ≠ Some (Reg p data).
Proof.
  unfold unlink_if_ordinary.
  destruct (fs1 !! outfile) as [[q|q d]|] eqn:E.
  - by rewrite E.
  - by rewrite lookup_delete_eq.
  - by rewrite E.
Qed.

Lemma unlink_if_ordinary_other outfile (fs1 : gmap string node) name :
  name ≠ outfile →
  unlink_if_ordinary outfile fs1 !! name = fs1 !! name.
Proof.
  intros Hne. unfold unlink_if_ordinary.
  destruct (fs1 !! outfile) as [[q|q d]|]; try done.
  by rewrite lookup_delete_ne.
Qed.

End extractor.




(** C10 (as amended). Once the debug sections have been copied and the
    output file has been opened again, [copy_early_debug_info] returns
    [true] when the ELF header cannot be read back, and also when the
    header is read, names the x86-64 machine, and the section header
    table cannot be read back; in both cases no relocation record is
    visited and no failure is reported. *)
Theorem unreadable_output_is_success (h : host) (infile outfile : string)
    (fsys fs1 : gmap string node) (p : perms) (inobj out : list byte) :
  open_rdonly fsys infile = Some (Reg p inobj) →
  simple_object_start_read h inobj = true →
  simple_object_find_section h inobj debug_info_section = 1%Z →
  simple_object_copy_lto_debug_sections h inobj outfile fsys = (fs1, None) →
  fopen_update fs1 outfile = Some out →
  header_read out = false
  ∨ (header_read out = true
     ∧ e_machine (output_header out) = EM_X86_64
     ∧ section_headers_read out = false) →
  copy_early_debug_info h infile outfile fsys = (fs1, Ret true, []).
Proof.
  intros Ho Hs Hf Hc Hout Hcase.
  rewrite (copy_early_debug_info_copied _ _ _ _ _ _ _ Ho Hs Hf Hc).
  destruct Hcase as [Hh|(Hh & Hm & Hsh)].
  - by rewrite (adjust_output_no_header _ _ _ Hout Hh).
  - by rewrite (adjust_output_no_sections _ _ _ Hout Hh Hm Hsh).
Qed.

Lemma unreadable_output_is_success_witness :
  header_read Sample.x86_truncated_object = true
  ∧ section_headers_read Sample.x86_truncated_object = false
  ∧ copy_early_debug_info (Sample.the_host true 0) "x86.o" "out.o"
      Sample.truncated_fs
    = (<["out.o" := Reg rw_perms Sample.x86_truncated_object]>
         Sample.truncated_fs,
       Ret true, []).
Proof.
  split; [by vm_compute|split; [by vm_compute|]].
  apply (unreadable_output_is_success (Sample.the_host true 0) "x86.o" "out.o"
           Sample.truncated_fs _ rw_perms Sample.x86_truncated_object
           Sample.x86_truncated_object); try reflexivity.
  right. by vm_compute.
Defined.

(** The claim as it was stated fails: with a header that is read back
    and names another machine, the section header table cannot be read
    back, and the function does not return [true]: the assertion on
    [e_machine] stops the program first. *)
Lemma unreadable_output_counterexample :
  simple_object_copy_lto_debug_sections (Sample.the_host true 0)
    Sample.riscv_truncated_object "out.o" Sample.truncated_fs
  = (<["out.o" := Reg rw_perms Sample.riscv_truncated_object]>
       Sample.truncated_fs, None)
  ∧ header_read Sample.riscv_truncated_object = true
  ∧ section_headers_read Sample.riscv_truncated_object = false
  ∧ copy_early_debug_info (Sample.the_host true 0) "rv.o" "out.o"
      Sample.truncated_fs
    = (<["out.o" := Reg rw_perms Sample.riscv_truncated_object]>
         Sample.truncated_fs,
       Abort, []).
Proof. repeat split; by vm_compute. Qed.

(** ** The loop over the objects *)





(** ** The scan of the arguments *)

Section scan.

Lemma given_cons flag a rest :
  given flag (a :: rest)
  = bool_decide (flag = a)
    || given flag (match decide (a = "-dumpbase"), rest with
                   | left _, _ :: rest' => rest'
                   | _, _ => rest
                   end).
Proof.
  unfold given. cbn [option_tokens].
  rewrite <-bool_decide_or. apply bool_decide_ext.
  rewrite elem_of_cons.
  destruct (decide (a = "-dumpbase")) as [?|?], rest as [|? ?]; done.
Qed.

Lemma given_nil flag : given flag [] = false.
Proof. done. Qed.

(** The scan ends in the diagnostic for [-foffload-abi=], or returns
    with the two flags set exactly when they are given. *)
Lemma scan_args_spec (n : nat) :
  ∀ args o0, (length args ≤ n)%nat →
    scan_args args o0 = Fatal bad_offload_abi
    ∨ ∃ o, scan_args args o0 = Ret o
           ∧ fopenmp o = fopenmp o0 || given "-fopenmp" args
           ∧ fopenacc o = fopenacc o0 || given "-fopenacc" args.
Proof.
  induction n as [|n IH]; intros args o0 Hlen.
  { destruct args; [|simpl in Hlen; lia]. right. exists o0.
    rewrite !given_nil, !orb_false_r. done. }
  destruct args as [|a rest].
  { right. exists o0. rewrite !given_nil, !orb_false_r. done. }
  cbn [length] in Hlen. cbn [scan_args].
  assert (Hrest : (length rest ≤ n)%nat) by lia.
  rewrite !(given_cons _ a rest).
  destruct (startswith a "-foffload-abi=") eqn:Habi.
  { assert (a ≠ "-fopenmp") by (intros ->; done).
    assert (a ≠ "-fopenacc") by (intros ->; done).
    assert (a ≠ "-dumpbase") by (intros ->; done).
    rewrite !bool_decide_eq_false_2 by done.
    rewrite (decide_False (P := a = "-dumpbase")) by done.
    cbn [orb].
    case_decide.
    { destruct (IH rest (set_offload_abi OFFLOAD_ABI_LP64 o0) Hrest)
        as [?|(o & ? & ? & ?)]; eauto. }
    case_decide; [|by left].
    destruct (IH rest (set_offload_abi OFFLOAD_ABI_ILP32 o0) Hrest)
      as [?|(o & ? & ? & ?)]; eauto. }
  destruct (decide (a = "-fopenmp")) as [->|?].
  { destruct (IH rest (set_fopenmp o0) Hrest) as [?|(o & ? & Hm & Hc)];
      [by left|right]. exists o. cbn in Hm, Hc.
    rewrite Hm, Hc.
    rewrite (bool_decide_eq_true_2 ("-fopenmp" = "-fopenmp")) by done.
    rewrite (bool_decide_eq_false_2 ("-fopenacc" = "-fopenmp")) by done.
    rewrite decide_False by done. cbn [orb].
    rewrite orb_true_r. done. }
  destruct (decide (a = "-fopenacc")) as [->|?].
  { destruct (IH rest (set_fopenacc o0) Hrest) as [?|(o & ? & Hm & Hc)];
      [by left|right]. exists o. cbn in Hm, Hc.
    rewrite Hm, Hc.
    rewrite (bool_decide_eq_true_2 ("-fopenacc" = "-fopenacc")) by done.
    rewrite (bool_decide_eq_false_2 ("-fopenmp" = "-fopenacc")) by done.
    rewrite decide_False by done. cbn [orb].
    rewrite orb_true_r. done. }
  rewrite !bool_decide_eq_false_2 by done. cbn [orb].
  destruct (decide (a = "-fPIC")) as [->|?].
  { destruct (IH rest (set_fPIC o0) Hrest) as [?|(o & ? & ? & ?)]; eauto. }
  destruct (decide (a = "-fpic")) as [->|?].
  { destruct (IH rest (set_fpic o0) Hrest) as [?|(o & ? & ? & ?)]; eauto. }
  destruct (decide (a = "-save-temps")) as [->|?].
  { destruct (IH rest (set_save_temps o0) Hrest) as [?|(o & ? & ? & ?)];
      eauto. }
  destruct (decide (a = "-v")) as [->|?].
  { destruct (IH rest (set_verbose o0) Hrest) as [?|(o & ? & ? & ?)];
      eauto. }
  destruct (decide (a = "-dumpbase")) as [->|?].
  - destruct rest as [|d rest'].
    + right. exists o0. rewrite !given_nil, !orb_false_r. done.
    + cbn [length] in Hrest.
      destruct (IH rest' (set_dumppfx (Some d) o0) ltac:(lia))
        as [?|(o & ? & ? & ?)]; eauto.
  - destruct (IH rest o0 Hrest) as [?|(o & ? & ? & ?)]; eauto.
Qed.

End scan.

(** ** The first half of [main] *)

Section checks.

Variable h : host.

Lemma search_paths_returns paths st :
  ∃ ps found,
    search_paths h paths st = (set_probes (λ l, l ++ ps) st, Ret found).
Proof.
  revert st. induction paths as [|d paths IH]; intros st.
  - exists [], None. simpl. by rewrite set_probes_nil.
  - cbn [search_paths].
    erewrite bind_Ret by apply access_checkM_probe.
    fold (candidate h d).
    case_decide.
    + by eexists [_], _.
    + destruct (IH (set_probes (λ l, l ++ [candidate h d]) st))
        as (ps & found & ->).
      rewrite set_probes_app. by eexists _, _.
Qed.

(** The locator returns, unless the search path is needed and
    [COMPILER_PATH] is not set; it only adds to the probes. *)
Lemma locate_driver_cases collect_gcc st :
  ∃ ps r,
    locate_driver h collect_gcc st = (set_probes (λ l, l ++ ps) st, r)
    ∧ ((∃ found, r = Ret found)
       ∨ (r = Segv ∧ env st !! "COMPILER_PATH" = None)).
Proof.
  unfold locate_driver. destruct (gcc_path_of h collect_gcc) as [gcc_path|].
  - erewrite bind_Ret by apply access_checkM_probe.
    case_decide.
    { eexists [_], _. split; [done|]. eauto. }
    unfold getenv, gets. unfold mbind at 1, M_bind at 1.
    cbn [env set_probes].
    destruct (env st !! "COMPILER_PATH") as [cp|] eqn:Hcp.
    + destruct (parse_env_var_total (c_str (list_ascii_of_string cp)))
        as [[n paths] ->].
      destruct (search_paths_returns (take n paths)
                  (set_probes (λ l, l ++ [gcc_path +:+ "/" +:+ GCC_INSTALL_NAME h]) st))
        as (ps & found & ->).
      rewrite set_probes_app. eexists _, _. split; [done|]. eauto.
    + eexists [_], _. split; [done|]. by right.
  - exists [], (Ret (Some (GCC_INSTALL_NAME h))).
    rewrite set_probes_nil. split; [done|]. eauto.
Qed.


End checks.

Section returns.

Variable h : host.

Lemma main_build_returns o args driver st st' v :
  main_build h o args driver st = (st', Ret v) → v = (-1)%Z.
Proof.
  unfold main_build. intros H.
  apply bind_Ret_inv in H as (st0 & abi & _ & H).
  destruct (cc_passthrough args None) as [passed outname].
  bind_inv H. destruct a1 as [fs'|]; [|done].
  bind_inv H. by injection H as _ <-.
Qed.

End returns.

(** C1 (the code departs from the claim). Whenever [main] returns, it
    returns -1: the exit status of a run in which every check passes and
    the compiler succeeds is 255, not 0, and it is not the status of a
    linker, for none is run. *)
Theorem main_returns_minus_one (h : host) (argv : list string)
    (st st' : state) (v : Z) :
  main h argv st = (st', Ret v) →
  v = (-1)%Z ∧ exit_status (Ret v) = Some 255%Z.
Proof.
  unfold main. intros H.
  apply bind_Ret_inv in H as (st0 & [[o args] driver] & _ & H).
  apply main_build_returns in H as ->. done.
Qed.

Lemma main_returns_minus_one_witness :
  ∃ st' cc_argv,
    main (Sample.the_host true 0) Sample.the_argv Sample.the_state
    = (st', Ret (-1)%Z)
    ∧ spawned st' = [cc_argv]
    ∧ head cc_argv = Some (Str "/usr/bin/riscv32-unknown-elf-gcc")
    ∧ Str "-S" ∈ cc_argv
    ∧ (run (Sample.the_host true 0) Sample.the_argv Sample.the_state).2
      = Some 255%Z.
Proof.
  assert (∃ st', main (Sample.the_host true 0) Sample.the_argv Sample.the_state
                 = (st', Ret (-1)%Z)) as [st' Hm] by (by eexists; vm_compute).
  pose proof (main_returns_minus_one _ _ _ _ _ Hm) as [_ Hst].
  exists st'. eexists.
  split; [exact Hm|].
  assert (st' = (main (Sample.the_host true 0) Sample.the_argv
                   Sample.the_state).1) as -> by (by rewrite Hm).
  split; [by vm_compute|]. split; [by vm_compute|].
  split; [by apply (bool_decide_unpack _); vm_compute|].
  by vm_compute.
Defined.




Lemma mkoffload_cleanup_id (st : state) : mkoffload_cleanup st = st.
Proof. done. Qed.

Lemma run_exit_hooks_id (st : state) : run_exit_hooks st = st.
Proof.
  unfold run_exit_hooks. induction (exit_hooks st) as [|hook hooks IH]; [done|].
  cbn [foldr]. rewrite IH. by destruct hook.
Qed.

(** C4 (the code departs from the claim). The cleanup pass that runs at
    exit changes nothing, for [tool_cleanup] has an empty body: the
    process leaves the state in which [main] ended.  In a
    run without [-save-temps] that ends with every check passed and the
    compiler run, each path in [files_to_cleanup] still names a file
    when the process has exited (the entry that is not a path is the
    value of the unassigned [gcn_o_name]); one path is registered
    twice. *)
Theorem exit_cleanup_deletes_nothing :
  (∀ st, run_exit_hooks st = st)
  ∧ (∀ h argv st, (run h argv st).1 = (main h argv st).1)
  ∧ ∃ st',
      run (Sample.the_host true 0) Sample.the_argv Sample.the_state
      = (st', Some 255%Z)
      ∧ exit_hooks st' = [true]
      ∧ files_to_cleanup st'
        = [Str "/tmp/cc2.c"; Str "/tmp/cc3.mkoffload.1.s";
           Str "/tmp/cc4.mkoffload.2.s"; Indet;
           Str "/tmp/cc5.mkoffload.dbg.o"; Str "/tmp/cc5.mkoffload.dbg.o";
           Str "/tmp/cc6.mkoffload.omp_requires"]
      ∧ still_there (fs st') <$> files_to_cleanup st'
        = [true; true; true; false; true; true; true].
Proof.
  split; [apply run_exit_hooks_id|]. split.
  { intros h argv st. unfold run. destruct (main h argv st) as [st' r].
    destruct (exit_status r); [|done]. apply run_exit_hooks_id. }
  eexists. split; [by vm_compute|]. repeat split; by vm_compute.
Qed.

(** ** The second half of [main] *)

Section environment.

Variable h : host.

Lemma temp_name_env o fixed suffix st st1 name :
  temp_name h o fixed suffix st = (st1, Ret name) → env st1 = env st.
Proof.
  unfold temp_name, make_temp_fileM. destruct (save_temps o).
  - by intros [= <- _].
  - destruct (make_temp_file h suffix (fs st)). by intros [= <- _].
Qed.

Lemma fork_execute_env argv st st1 u :
  fork_execute h argv st = (st1, Ret u) → env st1 = env st.
Proof.
  unfold fork_execute. destruct (pex_run h argv (env st) (fs st)).
  case_decide; by intros [= <- _].
Qed.

Lemma putenv_requires_file name st :
  ∃ value,
    putenv (concat [Some "GCC_OFFLOAD_OMP_REQUIRES_FILE="; Some name]) st
    = (set_env (<["GCC_OFFLOAD_OMP_REQUIRES_FILE" := value]>) st, Ret tt).
Proof.
  unfold putenv. cbn [concat].
  destruct name as [|c name]; eexists; reflexivity.
Qed.

End environment.

(** C5 (the code departs from the claim). The three variables are read
    and unset, and that is all: whenever the branch that builds the
    linker's arguments and runs the compiler returns, [GCC_EXEC_PREFIX],
    [COMPILER_PATH] and [LIBRARY_PATH] are unset in the environment it
    leaves, whatever they held before; the values read are not put
    back. *)
Theorem redirection_variables_not_restored (h : host) (o : options)
    (args : list string) (driver : string) (cc_argv0 ld_argv : list arg)
    (st st' : state) :
  main_lp64 h o args driver cc_argv0 st = (st', Ret ld_argv) →
  env st' !! "GCC_EXEC_PREFIX" = None
  ∧ env st' !! "COMPILER_PATH" = None
  ∧ env st' !! "LIBRARY_PATH" = None.
Proof.
  intros H. unfold main_lp64 in H. bind_inv H.
  injection H as <- _.
  injection Hstep15 as <- _.
  apply fork_execute_env in Hstep14.
  destruct (putenv_requires_file a11 st13) as [value Hput].
  unfold xputenv in Hstep13. rewrite Hput in Hstep13.
  injection Hstep13 as <- _.
  injection Hstep12 as <- _.
  apply temp_name_env in Hstep11.
  injection Hstep10 as <- _. injection Hstep9 as <- _.
  injection Hstep8 as <- _.
  cbn [env set_env set_files_to_cleanup] in *.
  rewrite Hstep14, Hstep11.
  repeat split; by simplify_map_eq.
Qed.

Lemma redirection_variables_not_restored_witness :
  env Sample.the_state !! "GCC_EXEC_PREFIX" = Some "/usr/lib/gcc/"
  ∧ env Sample.the_state !! "COMPILER_PATH" = Some "/opt/a:/opt/b"
  ∧ env Sample.the_state !! "LIBRARY_PATH" = Some "/usr/lib"
  ∧ ∃ st' ld_argv,
      main_lp64 (Sample.the_host true 0)
        (set_offload_abi OFFLOAD_ABI_LP64 initial_options)
        (tail Sample.the_argv) "/usr/bin/riscv32-unknown-elf-gcc" []
        Sample.the_state
      = (st', Ret ld_argv)
      ∧ env st' !! "GCC_EXEC_PREFIX" = None
      ∧ env st' !! "COMPILER_PATH" = None
      ∧ env st' !! "LIBRARY_PATH" = None.
Proof.
  do 3 (split; [reflexivity|]).
  eexists _, _. split; [by vm_compute|].
  eapply (redirection_variables_not_restored (Sample.the_host true 0)
            (set_offload_abi OFFLOAD_ABI_LP64 initial_options)
            (tail Sample.the_argv) "/usr/bin/riscv32-unknown-elf-gcc" [] _
            Sample.the_state).
  by vm_compute.
Defined.

(** C7. Whenever the copy of the debug sections to the output path
    fails, the extractor returns failure and no ordinary file is left at
    the output path: a partially written output is removed.  Every other
    path is as the failed copy left it. *)
Theorem copy_failure_removes_output (h : host) (infile outfile : string)
    (fsys fs1 : gmap string node) (p : perms) (inobj : list byte)
    (errmsg : string) :
  open_rdonly fsys infile = Some (Reg p inobj) →
  simple_object_start_read h inobj = true →
  simple_object_find_section h inobj debug_info_section = 1%Z →
  simple_object_copy_lto_debug_sections h inobj outfile fsys
    = (fs1, Some errmsg) →
  ∃ fs',
    copy_early_debug_info h infile outfile fsys = (fs', Ret false, [])
    ∧ (∀ q data, fs' !! outfile ≠ Some (Reg q data))
    ∧ (∀ name, name ≠ outfile → fs' !! name = fs1 !! name).
Proof.
  intros Ho Hs Hf Hc. exists (unlink_if_ordinary outfile fs1).
  split; [|split].
  - unfold copy_early_debug_info. by rewrite Ho, Hs, Hf, Hc.
  - intros. apply unlink_if_ordinary_gone.
  - intros. by apply unlink_if_ordinary_other.
Qed.

Lemma copy_failure_removes_output_witness :
  simple_object_copy_lto_debug_sections
    (Sample.host_with_copy Sample.failing_copy true 0)
    Sample.x86_object "out.o" Sample.the_fs
  = (<["out.o" := Reg rw_perms (take 16 Sample.x86_object)]> Sample.the_fs,
     Some "write error")
  ∧ ∃ fs',
      copy_early_debug_info (Sample.host_with_copy Sample.failing_copy true 0)
        "in.o" "out.o" Sample.the_fs = (fs', Ret false, [])
      ∧ (∀ q data, fs' !! "out.o" ≠ Some (Reg q data))
      ∧ (∀ name, name ≠ "out.o" →
           fs' !! name
           = (<["out.o" := Reg rw_perms (take 16 Sample.x86_object)]>
                Sample.the_fs) !! name).
Proof.
  split; [reflexivity|].
  apply (copy_failure_removes_output
           (Sample.host_with_copy Sample.failing_copy true 0)
           "in.o" "out.o" Sample.the_fs _ rw_perms Sample.x86_object
           "write error"); reflexivity.
Defined.

(** C8. The toolchain locator accepts a candidate path only if it
    exists, is not a directory and is executable by the process; when
    the probe of the sibling of the reference compiler fails, the
    directories of the colon-separated search path are probed in their
    order and the first acceptable candidate is returned, nothing after
    it being probed.  (A reference compiler named without a directory
    gives no candidate path: the bare name of the offload compiler is
    kept, to be looked up by the one who runs it.) *)
Theorem locate_driver_first_match :
  (∀ fsys name,
     access_check fsys name X_OK = 0%Z ↔
     ∃ n, stat fsys name = Some n ∧ S_ISDIR n = false
          ∧ permits (node_perms n) X_OK = true)
  ∧ (∀ h collect_gcc gcc_path st st' driver,
       gcc_path_of h collect_gcc = Some gcc_path →
       locate_driver h collect_gcc st = (st', Ret (Some driver)) →
       access_check (fs st) driver X_OK = 0%Z ∧ driver ∈ probes st')
  ∧ (∀ h collect_gcc gcc_path cp before dir after st,
       let sibling := gcc_path +:+ "/" +:+ GCC_INSTALL_NAME h in
       gcc_path_of h collect_gcc = Some gcc_path →
       access_check (fs st) sibling X_OK ≠ 0%Z →
       env st !! "COMPILER_PATH" = Some cp →
       NUL ∉ list_ascii_of_string cp →
       split_colon (list_ascii_of_string cp) = before ++ dir :: after →
       Forall (λ d, access_check (fs st) (candidate h d) X_OK ≠ 0%Z) before →
       access_check (fs st) (candidate h dir) X_OK = 0%Z →
       locate_driver h collect_gcc st
       = (set_probes
            (λ l, l ++ sibling :: (candidate h <$> before) ++ [candidate h dir])
            st,
          Ret (Some (candidate h dir)))).
Proof.
  split; [|split].
  - intros. by rewrite access_check_acceptable, acceptable_stat.
  - intros h collect_gcc gcc_path st st' driver Hg.
    unfold locate_driver. rewrite Hg.
    erewrite bind_Ret by apply access_checkM_probe.
    case_decide as Hr.
    + intros [= <- <-]. split; [done|]. simpl. set_solver.
    + unfold getenv, gets. unfold mbind at 1, M_bind at 1.
      cbn [env set_probes].
      destruct (env st !! "COMPILER_PATH") as [cp|]; [|done].
      destruct (parse_env_var _) as [[n paths]|]; [|done].
      intros Hs. pose proof (search_paths_probed _ _ _ _ _ Hs) as Hin.
      apply search_paths_sound in Hs as [Ha _].
      split; [by apply access_check_acceptable|done].
  - intros h collect_gcc gcc_path cp before dir after st sibling
      Hg Hsib Hcp Hn Hsplit Hbefore Hdir.
    unfold locate_driver. rewrite Hg.
    erewrite bind_Ret by apply access_checkM_probe.
    fold sibling. rewrite decide_False by done.
    unfold getenv, gets. unfold mbind at 1, M_bind at 1.
    cbn [env set_probes]. rewrite Hcp.
    rewrite split_colon_take by done.
    rewrite firstn_all, Hsplit.
    rewrite search_paths_first.
    + by rewrite set_probes_app.
    + eapply Forall_impl; [exact Hbefore|]. cbn [fs set_probes].
      intros d Hd. destruct (acceptable (fs st) (candidate h d)) eqn:E; [|done].
      by apply access_check_acceptable in E.
    + by apply access_check_acceptable.
Qed.

Lemma locate_driver_first_match_witness :
  access_check (fs Sample.search_state) "/opt/a/riscv32-unknown-elf-gcc" X_OK
    ≠ 0%Z
  ∧ access_check (fs Sample.search_state) "/opt/c/riscv32-unknown-elf-gcc" X_OK
    = 0%Z
  ∧ locate_driver (Sample.the_host true 0) "/usr/bin/gcc" Sample.search_state
    = (set_probes
         (λ l, l ++ ["/usr/bin/riscv32-unknown-elf-gcc";
                     "/opt/a/riscv32-unknown-elf-gcc";
                     "/opt/b/riscv32-unknown-elf-gcc"])
         Sample.search_state,
       Ret (Some "/opt/b/riscv32-unknown-elf-gcc")).
Proof.
  split; [by vm_compute|split; [by vm_compute|]].
  apply (proj2 (proj2 locate_driver_first_match)
           (Sample.the_host true 0) "/usr/bin/gcc" "/usr/bin"
           "/opt/a:/opt/b:/opt/c"
           [list_ascii_of_string "/opt/a"] (list_ascii_of_string "/opt/b")
           [list_ascii_of_string "/opt/c"] Sample.search_state).
  - by vm_compute.
  - by vm_compute.
  - by vm_compute.
  - apply (bool_decide_unpack _). by vm_compute.
  - by vm_compute.
  - repeat constructor. by vm_compute.
  - by vm_compute.
Defined.

(** C9. For every string [s] (stored with its terminator, whatever
    follows it in memory), [parse_env_var] returns [k + 1] strings, [k]
    being the number of [':'] in [s]; they are the colon-separated
    fields of [s] in order: none contains a colon, and joined with [':']
    they give [s] again. *)
Theorem parse_env_var_fields (s : list ascii) (rest : cptr) :
  NUL ∉ s →
  parse_env_var (s ++ NUL :: rest)
    = Some (S (count_char colon s), split_colon s)
  ∧ length (split_colon s) = S (count_char colon s)
  ∧ Forall (λ v, colon ∉ v) (split_colon s)
  ∧ join_colon (split_colon s) = s.
Proof.
  intros Hn. repeat split.
  - by rewrite parse_env_var_split, split_colon_length.
  - apply split_colon_length.
  - eapply Forall_impl; [by apply split_colon_clean|]. by intros v [? ?].
  - apply split_colon_join.
Qed.

(** The empty string gives one empty field, and an empty field between
    two colons is kept. *)
Lemma parse_env_var_fields_witness :
  (NUL ∉ list_ascii_of_string "/opt/a::/opt/b")
  ∧ parse_env_var (c_str (list_ascii_of_string "/opt/a::/opt/b"))
    = Some (3, list_ascii_of_string <$> ["/opt/a"; ""; "/opt/b"])
  ∧ parse_env_var (c_str []) = Some (1, [[]]).
Proof.
  assert (H : NUL ∉ list_ascii_of_string "/opt/a::/opt/b").
  { apply (bool_decide_unpack _). vm_compute. exact I. }
  split; [exact H|split].
  - exact (proj1 (parse_env_var_fields _ [] H)).
  - exact (proj1 (parse_env_var_fields [] [] (not_elem_of_nil NUL))).
Defined.

(** ** More on the scan of the arguments *)

Section scan_full.

Lemma option_tokens_cons a rest :
  option_tokens (a :: rest) = a :: option_tokens (scan_next a rest).
Proof.
  unfold scan_next. cbn [option_tokens].
  by destruct (decide (a = "-dumpbase")), rest.
Qed.

Lemma given_next flag a rest :
  given flag (a :: rest)
  = bool_decide (flag = a) || given flag (scan_next a rest).
Proof. apply given_cons. Qed.

Lemma has_bad_abi_cons a rest :
  has_bad_abi (a :: rest) = bad_abi_option a || has_bad_abi (scan_next a rest).
Proof. unfold has_bad_abi. by rewrite option_tokens_cons. Qed.

Lemma scan_post_nil o : scan_post [] o o.
Proof. unfold scan_post, given. cbn. by rewrite !orb_false_r. Qed.

(** One step of the scan on an argument that sets nothing. *)
Lemma scan_post_skip a rest o0 o :
  startswith a "-foffload-abi=" = false →
  a ≠ "-fopenmp" → a ≠ "-fopenacc" → a ≠ "-fPIC" → a ≠ "-fpic" →
  a ≠ "-save-temps" → a ≠ "-v" →
  scan_post (scan_next a rest) o0 o → scan_post (a :: rest) o0 o.
Proof.
  intros Habi ? ? ? ? ? ?. unfold scan_post.
  rewrite !given_next, option_tokens_cons.
  rewrite !bool_decide_eq_false_2 by done. cbn [orb].
  unfold abi_of. cbn [foldl].
  replace (abi_step (offload_abi o0) a) with (offload_abi o0); [done|].
  unfold abi_step. by rewrite Habi.
Qed.

(** Evaluates the comparisons between string literals in the goal. *)
Ltac eval_literals :=
  repeat match goal with
  | |- context [bool_decide (?x = ?y)] =>
      is_ground x; is_ground y;
      let b := eval vm_compute in (bool_decide (x = y)) in
      change (bool_decide (x = y)) with b
  | |- context [startswith ?x ?y] =>
      is_ground x; is_ground y;
      let b := eval vm_compute in (startswith x y) in
      change (startswith x y) with b
  end.

Ltac scan_post_flag :=
  unfold scan_post; rewrite !given_next, option_tokens_cons;
  unfold abi_of; cbn [foldl]; unfold abi_step at 2; eval_literals;
  cbn [orb fopenmp fopenacc fPIC fpic save_temps verbose offload_abi
       set_fopenmp set_fopenacc set_fPIC set_fpic set_save_temps set_verbose
       set_dumppfx];
  intros (-> & -> & -> & -> & -> & -> & ->);
  rewrite ?orb_true_r; done.

Lemma scan_post_fopenmp rest o0 o :
  scan_post (scan_next "-fopenmp" rest) (set_fopenmp o0) o →
  scan_post ("-fopenmp" :: rest) o0 o.
Proof. scan_post_flag. Qed.

Lemma scan_post_fopenacc rest o0 o :
  scan_post (scan_next "-fopenacc" rest) (set_fopenacc o0) o →
  scan_post ("-fopenacc" :: rest) o0 o.
Proof. scan_post_flag. Qed.

Lemma scan_post_fPIC rest o0 o :
  scan_post (scan_next "-fPIC" rest) (set_fPIC o0) o →
  scan_post ("-fPIC" :: rest) o0 o.
Proof. scan_post_flag. Qed.

Lemma scan_post_fpic rest o0 o :
  scan_post (scan_next "-fpic" rest) (set_fpic o0) o →
  scan_post ("-fpic" :: rest) o0 o.
Proof. scan_post_flag. Qed.

Lemma scan_post_save_temps rest o0 o :
  scan_post (scan_next "-save-temps" rest) (set_save_temps o0) o →
  scan_post ("-save-temps" :: rest) o0 o.
Proof. scan_post_flag. Qed.

Lemma scan_post_verbose rest o0 o :
  scan_post (scan_next "-v" rest) (set_verbose o0) o →
  scan_post ("-v" :: rest) o0 o.
Proof. scan_post_flag. Qed.

Lemma scan_post_dumpbase rest d o0 o :
  scan_post (scan_next "-dumpbase" rest) (set_dumppfx d o0) o →
  scan_post ("-dumpbase" :: rest) o0 o.
Proof. scan_post_flag. Qed.

Lemma scan_post_abi a rest x o0 o :
  startswith a "-foffload-abi=" = true →
  abi_step (offload_abi o0) a = x →
  scan_post rest (set_offload_abi x o0) o → scan_post (a :: rest) o0 o.
Proof.
  intros Habi Hx.
  assert (a ≠ "-dumpbase") by (intros ->; done).
  assert (scan_next a rest = rest) as Hnext
    by (unfold scan_next; by rewrite decide_False).
  unfold scan_post. rewrite !given_next, option_tokens_cons, Hnext.
  rewrite !bool_decide_eq_false_2 by (intros <-; done).
  unfold abi_of. cbn [foldl]. rewrite Hx.
  cbn [orb fopenmp fopenacc fPIC fpic save_temps verbose offload_abi
       set_offload_abi]. done.
Qed.

(** The scan fails exactly on a bad [-foffload-abi=] option; otherwise
    it returns with every variable set as the options say. *)
Lemma scan_args_full (n : nat) :
  ∀ args o0, (length args ≤ n)%nat →
    if has_bad_abi args then scan_args args o0 = Fatal bad_offload_abi
    else ∃ o, scan_args args o0 = Ret o ∧ scan_post args o0 o.
Proof.
  induction n as [|n IH]; intros args o0 Hlen.
  { destruct args; [|simpl in Hlen; lia]. exists o0.
    split; [done|apply scan_post_nil]. }
  destruct args as [|a rest].
  { exists o0. split; [done|apply scan_post_nil]. }
  cbn [length] in Hlen. assert (Hrest : (length rest ≤ n)%nat) by lia.
  assert (Hnext : (length (scan_next a rest) ≤ n)%nat).
  { unfold scan_next. destruct (decide _), rest; simpl in *; lia. }
  rewrite has_bad_abi_cons. cbn [scan_args]. unfold bad_abi_option.
  change (substring 14 (String.length a - 14) a) with (abi_value a).
  destruct (startswith a "-foffload-abi=") eqn:Habi; cbn [andb].
  { assert (scan_next a rest = rest) as ->.
    { unfold scan_next. rewrite decide_False; [done|]. by intros ->. }
    destruct (decide (abi_value a = "lp64")) as [Hv|Hv].
    { rewrite (bool_decide_eq_true_2 _ Hv). cbn [orb negb].
      specialize (IH rest (set_offload_abi OFFLOAD_ABI_LP64 o0) Hrest).
      destruct (has_bad_abi rest); [done|].
      destruct IH as (o & ? & Hpost). exists o. split; [done|].
      eapply scan_post_abi; [done| |exact Hpost].
      unfold abi_step. by rewrite Habi, decide_True. }
    rewrite (bool_decide_eq_false_2 _ Hv).
    destruct (decide (abi_value a = "ilp32")) as [Hw|Hw].
    { rewrite (bool_decide_eq_true_2 _ Hw). cbn [orb negb].
      specialize (IH rest (set_offload_abi OFFLOAD_ABI_ILP32 o0) Hrest).
      destruct (has_bad_abi rest); [done|].
      destruct IH as (o & ? & Hpost). exists o. split; [done|].
      eapply scan_post_abi; [done| |exact Hpost].
      unfold abi_step. rewrite Habi, decide_False, decide_True; done. }
    by rewrite (bool_decide_eq_false_2 _ Hw). }
  destruct (decide (a = "-fopenmp")) as [->|?].
  { specialize (IH _ (set_fopenmp o0) Hnext).
    destruct (has_bad_abi _); [done|]. destruct IH as (o & ? & ?).
    exists o. split; [done|]. by apply scan_post_fopenmp. }
  destruct (decide (a = "-fopenacc")) as [->|?].
  { specialize (IH _ (set_fopenacc o0) Hnext).
    destruct (has_bad_abi _); [done|]. destruct IH as (o & ? & ?).
    exists o. split; [done|]. by apply scan_post_fopenacc. }
  destruct (decide (a = "-fPIC")) as [->|?].
  { specialize (IH _ (set_fPIC o0) Hnext).
    destruct (has_bad_abi _); [done|]. destruct IH as (o & ? & ?).
    exists o. split; [done|]. by apply scan_post_fPIC. }
  destruct (decide (a = "-fpic")) as [->|?].
  { specialize (IH _ (set_fpic o0) Hnext).
    destruct (has_bad_abi _); [done|]. destruct IH as (o & ? & ?).
    exists o. split; [done|]. by apply scan_post_fpic. }
  destruct (decide (a = "-save-temps")) as [->|?].
  { specialize (IH _ (set_save_temps o0) Hnext).
    destruct (has_bad_abi _); [done|]. destruct IH as (o & ? & ?).
    exists o. split; [done|]. by apply scan_post_save_temps. }
  destruct (decide (a = "-v")) as [->|?].
  { specialize (IH _ (set_verbose o0) Hnext).
    destruct (has_bad_abi _); [done|]. destruct IH as (o & ? & ?).
    exists o. split; [done|]. by apply scan_post_verbose. }
  destruct (decide (a = "-dumpbase")) as [->|?].
  - destruct rest as [|d rest'].
    + exists o0. split; [done|].
      eapply (scan_post_dumpbase [] (dumppfx o0)).
      destruct o0. apply scan_post_nil.
    + specialize (IH rest' (set_dumppfx (Some d) o0) Hnext).
      change (scan_next "-dumpbase" (d :: rest')) with rest'.
      destruct (has_bad_abi rest'); [done|]. destruct IH as (o & ? & ?).
      exists o. split; [done|]. by eapply scan_post_dumpbase.
  - assert (scan_next a rest = rest) as Hn
      by (unfold scan_next; by rewrite decide_False).
    rewrite Hn in *.
    specialize (IH rest o0 Hrest).
    destruct (has_bad_abi rest); [done|]. destruct IH as (o & ? & ?).
    exists o. split; [done|]. apply scan_post_skip; try done. by rewrite Hn.
Qed.

End scan_full.

(** X1. The scan of the arguments ends in the diagnostic for
    [-foffload-abi=] exactly when an argument in option position is such
    an option with a value other than [lp64] and [ilp32]; otherwise it
    returns, each of the six flags is set exactly when it is given, and
    the ABI is that of the last [-foffload-abi=] option (unset when
    there is none). *)
Theorem scan_args_sets_options (args : list string) :
  if has_bad_abi args then
    scan_args args initial_options = Fatal bad_offload_abi
  else
    ∃ o, scan_args args initial_options = Ret o
         ∧ fopenmp o = given "-fopenmp" args
         ∧ fopenacc o = given "-fopenacc" args
         ∧ fPIC o = given "-fPIC" args
         ∧ fpic o = given "-fpic" args
         ∧ save_temps o = given "-save-temps" args
         ∧ verbose o = given "-v" args
         ∧ offload_abi o = abi_of (option_tokens args) OFFLOAD_ABI_UNSET.
Proof.
  pose proof (scan_args_full (length args) args initial_options (le_n _)) as H.
  destruct (has_bad_abi args); [done|].
  destruct H as (o & Hs & Hpost). exists o. split; [done|]. exact Hpost.
Qed.

(** ** The arguments of the compiler *)

Lemma cc_passthrough_plain (l : list string) (outname : option string) :
  "-o" ∉ l → cc_passthrough l outname = (Str <$> l, outname).
Proof.
  induction l as [|a l IH]; [done|]. intros Hn.
  apply not_elem_of_cons in Hn as [Ha Hl]. cbn [cc_passthrough].
  rewrite (IH Hl). destruct (decide (a = "-o")); [congruence|]. by destruct l.
Qed.

Lemma cc_passthrough_app (pre l : list string) (outname : option string) :
  "-o" ∉ pre →
  cc_passthrough (pre ++ l) outname
  = ((Str <$> pre) ++ (cc_passthrough l outname).1,
     (cc_passthrough l outname).2).
Proof.
  induction pre as [|a pre IH]; intros Hn.
  - cbn [app fmap list_fmap]. by destruct (cc_passthrough l outname).
  - apply not_elem_of_cons in Hn as [Ha Hl]. cbn [app cc_passthrough].
    rewrite (IH Hl). cbn [fmap list_fmap app].
    destruct (decide (a = "-o")); [congruence|]. by destruct (pre ++ l).
Qed.

(** X2. The loop that hands the arguments to the compiler takes [-o]
    and its operand out and keeps the operand as the output name; every
    other argument is passed on, in order.  An [-o] that is the last
    argument has no operand: it is passed on and no output name is
    set. *)
Theorem cc_passthrough_output_name (pre post : list string) (out : string) :
  "-o" ∉ pre → "-o" ∉ post →
  cc_passthrough (pre ++ "-o" :: out :: post) None
    = (Str <$> (pre ++ post), Some out)
  ∧ cc_passthrough (pre ++ ["-o"]) None = (Str <$> (pre ++ ["-o"]), None).
Proof.
  intros Hpre Hpost. split.
  - rewrite cc_passthrough_app by done. cbn [cc_passthrough].
    rewrite decide_True by done. rewrite cc_passthrough_plain by done.
    cbn [fst snd]. by rewrite fmap_app.
  - rewrite cc_passthrough_app by done. cbn [cc_passthrough].
    rewrite decide_True by done. cbn [fst snd]. by rewrite fmap_app.
Qed.

Lemma cc_passthrough_output_name_witness :
  cc_passthrough ["-fopenmp"; "in.o"; "-o"; "out.img"; "-v"] None
    = ([Str "-fopenmp"; Str "in.o"; Str "-v"], Some "out.img")
  ∧ cc_passthrough ["-fopenmp"; "in.o"; "-o"] None
    = ([Str "-fopenmp"; Str "in.o"; Str "-o"], None).
Proof.
  apply (cc_passthrough_output_name ["-fopenmp"; "in.o"] ["-v"] "out.img");
    apply (bool_decide_unpack _); by vm_compute.
Defined.

(** ** What the steps of [main] leave alone *)

Section frame.

Variable h : host.

Lemma quiet_refl st : quiet st st.
Proof. by repeat split. Qed.

Lemma quiet_trans st1 st2 st3 : quiet st1 st2 → quiet st2 st3 → quiet st1 st3.
Proof.
  intros (? & ? & ? & ? & ?) (? & ? & ? & ? & ?).
  repeat split; try congruence. by etrans.
Qed.

Lemma quiet_set_fs f st : quiet st (set_fs f st).
Proof. by repeat split. Qed.

Lemma quiet_register p st : quiet st (set_files_to_cleanup (λ l, l ++ [p]) st).
Proof. repeat split; try done. by apply prefix_app_r. Qed.

Lemma quiet_elem_of st st' p :
  quiet st st' → p ∈ files_to_cleanup st → p ∈ files_to_cleanup st'.
Proof.
  intros (_ & _ & _ & _ & [l ->]) ?. apply elem_of_app. by left.
Qed.

(** Naming an intermediate file always returns. *)
Lemma temp_name_returns o fixed suffix st :
  ∃ st1 name,
    temp_name h o fixed suffix st = (st1, Ret name)
    ∧ quiet st st1
    ∧ files_to_cleanup st1 = files_to_cleanup st
    ∧ (save_temps o = true → st1 = st ∧ name = fixed).
Proof.
  unfold temp_name, make_temp_fileM. destruct (save_temps o).
  - exists st, fixed. repeat split; done.
  - destruct (make_temp_file h suffix (fs st)) as [name fs1].
    eexists _, _. repeat split; done.
Qed.

(** The extractor returns, stops on the assertion, or never ends. *)
Lemma copy_early_debug_info_results infile outfile fsys fs' r visits :
  copy_early_debug_info h infile outfile fsys = (fs', r, visits) →
  (∃ b, r = Ret b) ∨ r = Abort ∨ r = Hang.
Proof.
  unfold copy_early_debug_info.
  destruct (open_rdonly fsys infile) as [[p|p inobj]|];
    try (intros [= _ <- _]; eauto).
  destruct (simple_object_start_read h inobj);
    [|intros [= _ <- _]; eauto]. cbn [negb].
  destruct (negb _); [intros [= _ <- _]; eauto|].
  destruct (simple_object_copy_lto_debug_sections h inobj outfile fsys)
    as [fs1 [errmsg|]]; [intros [= _ <- _]; eauto|].
  unfold adjust_output.
  destruct (fopen_update fs1 outfile) as [out|]; [|intros [= _ <- _]; eauto].
  destruct (fread out 0 sizeof_Ehdr 1) as [n hdr].
  destruct (negb (n =? 1)%Z); [intros [= _ <- _]; eauto|].
  destruct (negb (e_machine (decode_Ehdr hdr) =? EM_X86_64)%Z);
    [intros [= _ <- _]; eauto|].
  destruct (fseek (e_shoff (decode_Ehdr hdr))) as [pos|];
    [|intros [= _ <- _]; eauto].
  destruct (fread out pos sizeof_Shdr (e_shnum (decode_Ehdr hdr))) as [m sht].
  destruct (negb (m =? e_shnum (decode_Ehdr hdr))%Z);
    [intros [= _ <- _]; eauto|].
  destruct (visit_sections _ _ _); intros [= _ <- _]; eauto.
Qed.

Lemma copy_early_debug_infoM_cases infile outfile st :
  ∃ st1 r,
    copy_early_debug_infoM h infile outfile st = (st1, r)
    ∧ quiet st st1
    ∧ files_to_cleanup st1 = files_to_cleanup st
    ∧ ((∃ b, r = Ret b) ∨ r = Abort ∨ r = Hang).
Proof.
  unfold copy_early_debug_infoM.
  destruct (copy_early_debug_info h infile outfile (fs st))
    as [[fs' r] visits] eqn:E.
  apply copy_early_debug_info_results in E.
  eexists _, _. split; [done|]. split; [apply quiet_set_fs|]. done.
Qed.

(** One round of the loop over the objects: quiet; what it adds to the
    linker's arguments it has registered. *)
Lemma debug_object_cases o a dbgcount ld_argv st :
  ∃ st' r,
    debug_object h o a dbgcount ld_argv st = (st', r)
    ∧ quiet st st'
    ∧ ((∃ dbgcount' new,
          r = Ret (dbgcount', ld_argv ++ new)
          ∧ ∀ p, p ∈ new → p ∈ files_to_cleanup st')
       ∨ r = Abort ∨ r = Hang).
Proof.
  unfold debug_object. destruct (is_dot_o a).
  2:{ exists st, (Ret (dbgcount, ld_argv)). split; [done|].
      split; [apply quiet_refl|]. left. exists dbgcount, [].
      rewrite app_nil_r. split; [done|]. intros p Hp. by apply elem_of_nil in Hp. }
  set (naming := if save_temps o then _ else _).
  assert (∃ st1 dbgobj n1, naming st = (st1, Ret (dbgobj, n1)) ∧ quiet st st1)
    as (st1 & dbgobj & n1 & Hn & Hq1).
  { subst naming. destruct (save_temps o).
    - eexists _, _, _. split; [done|apply quiet_refl].
    - unfold make_temp_fileM. unfold mbind, M_bind.
      destruct (make_temp_file h ".mkoffload.dbg.o" (fs st)) as [name fs1].
      eexists _, _, _. split; [done|apply quiet_set_fs]. }
  erewrite bind_Ret by exact Hn. cbn beta iota.
  erewrite bind_Ret by reflexivity.
  set (st2 := set_files_to_cleanup (λ l, l ++ [Str dbgobj]) st1).
  assert (quiet st st2) as Hq2
    by (eapply quiet_trans; [exact Hq1|apply quiet_register]).
  destruct (copy_early_debug_infoM_cases a dbgobj st2)
    as (st3 & r3 & Hc & Hq3 & Hf3 & Hr3).
  unfold mbind at 1, M_bind at 1. rewrite Hc.
  assert (quiet st st3) as Hq by (eapply quiet_trans; done).
  destruct Hr3 as [[b ->]|[ -> | -> ]].
  - destruct b.
    + unfold register_cleanup, modify, mbind, M_bind, mret, M_ret.
      eexists _, _. split; [done|].
      split; [eapply quiet_trans; [exact Hq|apply quiet_register]|].
      left. exists n1, [Str dbgobj]. split; [done|].
      intros p Hp. apply list_elem_of_singleton in Hp as ->.
      cbn [files_to_cleanup set_files_to_cleanup].
      rewrite elem_of_app, list_elem_of_singleton. by right.
    + eexists _, _. split; [done|]. split; [done|].
      left. exists n1, []. rewrite app_nil_r. split; [done|].
      intros p Hp. by apply elem_of_nil in Hp.
  - eexists _, _. split; [done|]. split; [done|]. eauto.
  - eexists _, _. split; [done|]. split; [done|]. eauto.
Qed.

Lemma debug_objects_cases_n (n : nat) o :
  ∀ args dbgcount ld_argv st, (length args ≤ n)%nat →
    ∃ st' r,
      debug_objects h o args dbgcount ld_argv st = (st', r)
      ∧ quiet st st'
      ∧ ((∃ new, r = Ret (ld_argv ++ new)
                 ∧ ∀ p, p ∈ new → p ∈ files_to_cleanup st')
         ∨ r = Abort ∨ r = Hang).
Proof.
  induction n as [|n IH]; intros args dbgcount ld_argv st Hlen.
  { destruct args; [|simpl in Hlen; lia].
    exists st, (Ret ld_argv). split; [done|]. split; [apply quiet_refl|].
    left. exists []. rewrite app_nil_r. split; [done|].
    intros p Hp. by apply elem_of_nil in Hp. }
  destruct args as [|a rest].
  { exists st, (Ret ld_argv). split; [done|]. split; [apply quiet_refl|].
    left. exists []. rewrite app_nil_r. split; [done|].
    intros p Hp. by apply elem_of_nil in Hp. }
  cbn [length] in Hlen. cbn [debug_objects].
  assert (∀ dbgcount ld_argv st,
    ∃ st' r,
      (debug_object h o a dbgcount ld_argv
         ≫= λ '(dbgcount', ld_argv'),
               debug_objects h o rest dbgcount' ld_argv') st = (st', r)
      ∧ quiet st st'
      ∧ ((∃ new, r = Ret (ld_argv ++ new)
                 ∧ ∀ p, p ∈ new → p ∈ files_to_cleanup st')
         ∨ r = Abort ∨ r = Hang)) as Hstep.
  { clear dbgcount ld_argv st. intros dbgcount ld_argv st.
    destruct (debug_object_cases o a dbgcount ld_argv st)
      as (st1 & r1 & H1 & Hq1 & [(n1 & new1 & -> & Hreg1)|[ -> | -> ]]).
    - erewrite bind_Ret by exact H1.
      destruct (IH rest n1 (ld_argv ++ new1) st1 ltac:(lia))
        as (st2 & r2 & H2 & Hq2 & Hr2).
      exists st2, r2. split; [done|]. split; [by eapply quiet_trans|].
      destruct Hr2 as [(new2 & -> & Hreg2)|Hr2]; [left|by right].
      exists (new1 ++ new2). rewrite app_assoc. split; [done|].
      intros p [Hp|Hp]%elem_of_app; [|by apply Hreg2].
      eapply quiet_elem_of; [exact Hq2|]. by apply Hreg1.
    - exists st1, Abort. unfold mbind, M_bind. rewrite H1. eauto.
    - exists st1, Hang. unfold mbind, M_bind. rewrite H1. eauto. }
  destruct (decide (a = "-o")) as [->|?]; [|apply Hstep].
  destruct rest as [|out rest']; [apply Hstep|].
  cbn [length] in Hlen. apply IH. lia.
Qed.

Lemma debug_objects_cases o args dbgcount ld_argv st :
  ∃ st' r,
    debug_objects h o args dbgcount ld_argv st = (st', r)
    ∧ quiet st st'
    ∧ ((∃ new, r = Ret (ld_argv ++ new)
               ∧ ∀ p, p ∈ new → p ∈ files_to_cleanup st')
       ∨ r = Abort ∨ r = Hang).
Proof. by apply (debug_objects_cases_n (length args)). Qed.

End frame.

(** ** The branch that runs the compiler *)

Section lp64.

Variable h : host.

(** The environment after the three variables are unset. *)
Lemma unsetenv_step name st :
  unsetenv name st = (set_env (delete name) st, Ret tt).
Proof. done. Qed.

(** Every way the branch can end.  Either the loop over the objects
    stops the program, and nothing but the file system and the cleanup
    list has changed; or the compiler is run, once. *)
Lemma main_lp64_cases o args driver cc_argv0 st :
  ∃ st' r,
    main_lp64 h o args driver cc_argv0 st = (st', r)
    ∧ files_to_cleanup st `prefix_of` files_to_cleanup st'
    ∧ exit_hooks st' = exit_hooks st
    ∧ probes st' = probes st
    ∧ ((quiet st st' ∧ (r = Abort ∨ r = Hang))
       ∨ ∃ gcn_s1_name omp_requires_file cleared,
           cleared = delete "LIBRARY_PATH"
                       (delete "COMPILER_PATH"
                          (delete "GCC_EXEC_PREFIX" (env st)))
           ∧ spawned st'
             = spawned st
               ++ [cc_argv0 ++
                   [Str "-dumpdir"; Str ""; Str "-dumpbase";
                    Str (concat [dumppfx o; Some ".mkoffload"]);
                    Str "-dumpbase-ext"; Str ""; Str "-o"; Str gcn_s1_name]]
           ∧ Str gcn_s1_name ∈ files_to_cleanup st'
           ∧ Str omp_requires_file ∈ files_to_cleanup st'
           ∧ ((∃ new,
                 r = Ret ([Str driver] ++ new
                            ++ bool_args (verbose o) "-v"
                            ++ bool_args (save_temps o) "-save-temps"
                            ++ ld_passthrough args ++ [Str "-o"; Indet])
                 ∧ (∀ p, p ∈ new → p ∈ files_to_cleanup st')
                 ∧ env st' = delete "GCC_OFFLOAD_OMP_REQUIRES_FILE" cleared)
              ∨ (∃ status value,
                   status ≠ 0%Z
                   ∧ r = Fatal (subprocess_failed status)
                   ∧ env st'
                     = <["GCC_OFFLOAD_OMP_REQUIRES_FILE" := value]> cleared))).
Proof.
  unfold main_lp64.
  destruct (temp_name_returns h o
              (concat [Some (concat [dumppfx o; Some ".mkoffload"]); Some ".1.s"])
              ".mkoffload.1.s" st) as (st1 & s1 & H1 & Q1 & F1 & _).
  erewrite bind_Ret by exact H1.
  destruct (temp_name_returns h o
              (concat [Some (concat [dumppfx o; Some ".mkoffload"]); Some ".2.s"])
              ".mkoffload.2.s" st1) as (st2 & s2 & H2 & Q2 & F2 & _).
  erewrite bind_Ret by exact H2.
  do 3 (erewrite bind_Ret by reflexivity).
  set (st5 := set_files_to_cleanup (λ l, l ++ [Indet]) _).
  assert (quiet st st5) as Q5.
  { eapply quiet_trans; [exact Q1|]. eapply quiet_trans; [exact Q2|].
    subst st5. eapply quiet_trans; [apply quiet_register|].
    eapply quiet_trans; apply quiet_register. }
  assert (Str s1 ∈ files_to_cleanup st5) as Hs1.
  { subst st5. cbn [files_to_cleanup set_files_to_cleanup].
    rewrite !elem_of_app, !list_elem_of_singleton. eauto. }
  destruct (debug_objects_cases h o args 0 [Str driver] st5)
    as (st6 & r6 & H6 & Q6 & Hr6).
  assert (quiet st st6) as Q by (by eapply quiet_trans).
  destruct Hr6 as [(new & -> & Hnew)|Hr6].
  2:{ exists st6, (match r6 with Abort => Abort | _ => Hang end).
      split.
      { unfold mbind at 1, M_bind at 1. rewrite H6.
        by destruct Hr6 as [ -> | -> ]. }
      destruct Q as (Qe & Qs & Qh & Qp & Qf).
      do 3 (split; [done|]). left. split; [by repeat split|].
      destruct Hr6 as [ -> | -> ]; eauto. }
  erewrite bind_Ret by exact H6.
  do 3 (erewrite bind_Ret by reflexivity).
  do 3 (erewrite bind_Ret by apply unsetenv_step).
  set (st9 := set_env (delete "LIBRARY_PATH") _).
  destruct (temp_name_returns h o
              (concat [dumppfx o; Some ".mkoffload.omp_requires"])
              ".mkoffload.omp_requires" st9) as (st10 & omp & H10 & Q10 & F10 & _).
  erewrite bind_Ret by exact H10.
  erewrite bind_Ret by reflexivity.
  set (st11 := set_files_to_cleanup (λ l, l ++ [Str omp]) st10).
  destruct (putenv_requires_file omp st11) as [value Hput].
  erewrite bind_Ret by exact Hput.
  set (st12 := set_env _ st11).
  destruct Q as (Qe & Qs & Qh & Qp & Qf).
  destruct Q10 as (Q10e & Q10s & Q10h & Q10p & Q10f).
  assert (files_to_cleanup st `prefix_of` files_to_cleanup st12) as Hpre.
  { subst st12 st11 st9. cbn [files_to_cleanup set_files_to_cleanup set_env].
    etrans; [exact Qf|]. rewrite F10.
    cbn [files_to_cleanup set_files_to_cleanup set_env].
    by apply prefix_app_r. }
  assert (env st12
          = <["GCC_OFFLOAD_OMP_REQUIRES_FILE" := value]>
              (delete "LIBRARY_PATH"
                 (delete "COMPILER_PATH"
                    (delete "GCC_EXEC_PREFIX" (env st))))) as Henv.
  { subst st12 st11. cbn [env set_env set_files_to_cleanup].
    rewrite Q10e. subst st9. cbn [env set_env]. by rewrite Qe. }
  assert (spawned st12 = spawned st) as Hsp.
  { subst st12 st11. cbn [spawned set_env set_files_to_cleanup].
    rewrite Q10s. subst st9. by cbn [spawned set_env]. }
  assert (exit_hooks st12 = exit_hooks st) as Hhk.
  { subst st12 st11. cbn [exit_hooks set_env set_files_to_cleanup].
    rewrite Q10h. subst st9. by cbn [exit_hooks set_env]. }
  assert (probes st12 = probes st) as Hpr.
  { subst st12 st11. cbn [probes set_env set_files_to_cleanup].
    rewrite Q10p. subst st9. by cbn [probes set_env]. }
  assert (∀ p, p ∈ files_to_cleanup st6 → p ∈ files_to_cleanup st12) as Hin.
  { intros p Hp. subst st12 st11.
    cbn [files_to_cleanup set_env set_files_to_cleanup]. rewrite F10.
    subst st9. cbn [files_to_cleanup set_env].
    rewrite elem_of_app. by left. }
  assert (Str omp ∈ files_to_cleanup st12) as Homp.
  { subst st12 st11. cbn [files_to_cleanup set_env set_files_to_cleanup].
    rewrite elem_of_app, list_elem_of_singleton. by right. }
  clearbody st12. clear Hput.
  unfold mbind at 1, M_bind at 1. unfold fork_execute at 1.
  destruct (pex_run h _ (env st12) (fs st12)) as [status fs'].
  case_decide as Hstatus.
  - erewrite bind_Ret by apply unsetenv_step.
    eexists _, _. split; [reflexivity|].
    cbn [files_to_cleanup exit_hooks probes spawned env set_env set_spawned
         set_fs].
    do 3 (split; [done|]). right. exists s1, omp. eexists. split; [reflexivity|].
    rewrite Hsp. split; [done|].
    split; [apply Hin; by eapply quiet_elem_of|]. split; [done|].
    left. exists new. split; [by rewrite <-!app_assoc|].
    split; [by intros p Hp; apply Hin, Hnew|].
    by rewrite Henv, delete_insert_eq.
  - eexists _, _. split; [reflexivity|].
    cbn [files_to_cleanup exit_hooks probes spawned env set_env set_spawned
         set_fs].
    do 3 (split; [done|]). right. exists s1, omp. eexists. split; [reflexivity|].
    rewrite Hsp. split; [done|].
    split; [apply Hin; by eapply quiet_elem_of|]. split; [done|].
    right. by exists status, value.
Qed.

End lp64.

(** ** The second half of [main], every outcome *)

Section build.

Variable h : host.

(** Every way the second half of [main] can end; [cleared] is the
    environment once the three variables have been unset. *)
Lemma main_build_cases o args driver st :
  let cleared := delete "LIBRARY_PATH"
                   (delete "COMPILER_PATH"
                      (delete "GCC_EXEC_PREFIX" (env st))) in
  ∃ st' r,
    main_build h o args driver st = (st', r)
    ∧ files_to_cleanup st `prefix_of` files_to_cleanup st'
    ∧ exit_hooks st' = exit_hooks st
    ∧ probes st' = probes st
    ∧ ((offload_abi o = OFFLOAD_ABI_UNSET ∧ st' = st ∧ r = Abort)
       ∨ ∃ gcn_cfile_name,
           Str gcn_cfile_name ∈ files_to_cleanup st'
           ∧ ((quiet st st' ∧ r = Fatal (cannot_open gcn_cfile_name)
               ∧ files_to_cleanup st'
                 = files_to_cleanup st ++ [Str gcn_cfile_name])
              ∨ (quiet st st' ∧ offload_abi o = OFFLOAD_ABI_ILP32
                 ∧ r = Ret (-1)%Z
                 ∧ files_to_cleanup st'
                   = files_to_cleanup st ++ [Str gcn_cfile_name])
              ∨ (quiet st st' ∧ offload_abi o = OFFLOAD_ABI_LP64
                 ∧ (r = Abort ∨ r = Hang))
              ∨ (offload_abi o = OFFLOAD_ABI_LP64
                 ∧ ∃ cc_rest,
                     spawned st'
                     = spawned st ++ [Str driver :: Str "-S" :: cc_rest]
                     ∧ ((r = Ret (-1)%Z
                         ∧ env st'
                           = delete "GCC_OFFLOAD_OMP_REQUIRES_FILE" cleared)
                        ∨ (∃ status value,
                             status ≠ 0%Z
                             ∧ r = Fatal (subprocess_failed status)
                             ∧ env st'
                               = <["GCC_OFFLOAD_OMP_REQUIRES_FILE" := value]>
                                   cleared))))).
Proof.
  intros cleared. unfold main_build.
  destruct (abi_option (offload_abi o)) as [abi| | | |] eqn:Habi;
    try by destruct (offload_abi o).
  2:{ exists st, Abort. split; [done|]. do 3 (split; [done|]). left.
      by destruct (offload_abi o). }
  erewrite bind_Ret by reflexivity.
  destruct (cc_passthrough args None) as [passed outname].
  set (o' := match dumppfx o with Some _ => o | None => set_dumppfx outname o end).
  assert (offload_abi o' = offload_abi o) as Ho'
    by (subst o'; by destruct (dumppfx o)).
  destruct (temp_name_returns h o' (concat [dumppfx o'; Some ".c"]) ".c" st)
    as (st1 & cfile & H1 & Q1 & F1 & _).
  erewrite bind_Ret by exact H1.
  do 2 (erewrite bind_Ret by reflexivity).
  set (st2 := set_files_to_cleanup (λ l, l ++ [Str cfile]) st1).
  assert (quiet st st2) as Q2
    by (eapply quiet_trans; [exact Q1|apply quiet_register]).
  assert (files_to_cleanup st2 = files_to_cleanup st ++ [Str cfile]) as F2
    by (subst st2; cbn [files_to_cleanup set_files_to_cleanup]; by rewrite F1).
  assert (Str cfile ∈ files_to_cleanup st2) as Hc.
  { rewrite F2, elem_of_app, list_elem_of_singleton. by right. }
  destruct (fopen_w (fs st2) cfile) as [fs'|].
  2:{ exists st2, (Fatal (cannot_open cfile)). split; [done|].
      destruct Q2 as (? & ? & ? & ? & ?). do 3 (split; [done|]).
      right. exists cfile. split; [done|]. left. by repeat split. }
  erewrite bind_Ret by reflexivity.
  set (st3 := set_fs (λ _, fs') st2).
  assert (quiet st st3) as Q3
    by (eapply quiet_trans; [exact Q2|apply quiet_set_fs]).
  rewrite Ho'.
  destruct (decide (offload_abi o = OFFLOAD_ABI_LP64)) as [Hlp|Hlp].
  2:{ exists st3, (Ret (-1)%Z). split; [done|].
      destruct Q3 as (? & ? & ? & ? & ?). do 3 (split; [done|]).
      right. exists cfile. split; [done|]. right. left.
      split; [by repeat split|].
      split; [by destruct (offload_abi o)|]. done. }
  set (cc_argv0 := [Str driver; Str "-S"] ++ _).
  destruct (main_lp64_cases h o' args driver cc_argv0 st3)
    as (st4 & r4 & H4 & Hpre & Hhk & Hpr & Hcase).
  destruct Q3 as (Q3e & Q3s & Q3h & Q3p & Q3f).
  assert (Str cfile ∈ files_to_cleanup st4) as Hc4.
  { destruct Hpre as [l ->]. rewrite elem_of_app. by left. }
  destruct Hcase as [[Q4 Hr4]|(s1 & omp & cl & -> & Hsp & _ & _ & Hr4)].
  - exists st4, (match r4 with Abort => Abort | _ => Hang end). split.
    { unfold mbind at 1 2, M_bind at 1 2. rewrite H4.
      by destruct Hr4 as [ -> | -> ]. }
    split; [by etrans|]. split; [congruence|]. split; [congruence|].
    right. exists cfile. split; [done|]. do 2 right. left.
    split; [eapply quiet_trans; [|exact Q4]; by repeat split|].
    split; [done|]. destruct Hr4 as [ -> | -> ]; eauto.
  - destruct Hr4 as [(new & -> & _ & Henv)|(status & value & ? & -> & Henv)].
    + exists st4, (Ret (-1)%Z). split.
      { unfold mbind at 1 2, M_bind at 1 2. by rewrite H4. }
      split; [by etrans|]. split; [congruence|]. split; [congruence|].
      right. exists cfile. split; [done|]. do 3 right. split; [done|].
      eexists. split; [by rewrite Hsp, Q3s|]. left. split; [done|].
      rewrite Henv. subst cleared. by rewrite Q3e.
    + exists st4, (Fatal (subprocess_failed status)). split.
      { unfold mbind at 1 2, M_bind at 1 2. by rewrite H4. }
      split; [by etrans|]. split; [congruence|]. split; [congruence|].
      right. exists cfile. split; [done|]. do 3 right. split; [done|].
      eexists. split; [by rewrite Hsp, Q3s|]. right.
      exists status, value. split; [done|]. split; [done|].
      rewrite Henv. subst cleared. by rewrite Q3e.
Qed.

(** Every way the first half of [main] can end. *)
Lemma main_checks_outcomes argv st :
  let args := tail (expandargv h (fs st) argv) in
  ∃ st' r,
    main_checks h argv st = (st', r)
    ∧ env st' = env st ∧ fs st' = fs st
    ∧ files_to_cleanup st' = files_to_cleanup st
    ∧ spawned st' = spawned st
    ∧ (exit_hooks st' = exit_hooks st
       ∨ exit_hooks st' = exit_hooks st ++ [true])
    ∧ (r = Fatal atexit_failed
       ∨ r = Fatal collect_gcc_unset
       ∨ (r = Segv ∧ env st !! "COMPILER_PATH" = None)
       ∨ r = Fatal compiler_not_found
       ∨ (r = Fatal bad_offload_abi
          ∧ scan_args args initial_options = Fatal bad_offload_abi)
       ∨ ∃ o, scan_args args initial_options = Ret o
              ∧ ((r = Fatal model_flag_required
                  ∧ check_model o = Fatal model_flag_required)
                 ∨ (∃ driver, r = Ret (o, args, driver)
                              ∧ check_model o = Ret tt))).
Proof.
  intros args. unfold main_checks.
  case_decide; [|by eexists _, _; repeat split; eauto].
  unfold modify, getenv, gets. unfold mbind at 1 2, M_bind at 1 2.
  cbn [env set_exit_hooks].
  destruct (env st !! "COLLECT_GCC") as [collect_gcc|];
    [|by eexists _, _; repeat split; eauto 10].
  destruct (locate_driver_cases h collect_gcc
              (set_exit_hooks (λ l, l ++ [true]) st))
    as (ps & r & Hl & [[found ->]|[-> Hnone]]).
  2:{ cbn [env set_exit_hooks] in Hnone.
      eexists _, _. split; [unfold mbind, M_bind; by rewrite Hl|].
      do 4 (split; [done|]). split; [by right|]. eauto 10. }
  erewrite bind_Ret by exact Hl.
  destruct found as [driver|];
    [|by eexists _, _; repeat split; eauto 10].
  unfold mbind at 1, M_bind at 1. cbn [fs set_probes set_exit_hooks].
  fold args. unfold fail. unfold mbind at 1, M_bind at 1.
  destruct (scan_args_spec (length args) args initial_options (le_n _))
    as [Hs|(o & Hs & _)]; rewrite Hs.
  { eexists _, _. split; [reflexivity|]. do 4 (split; [done|]).
    split; [by right|]. eauto 10. }
  unfold mbind at 1, M_bind at 1.
  destruct (check_model o) as [[]| | | |] eqn:Hck;
    try (unfold check_model in Hck; by destruct (negb _)).
  - eexists _, _. split; [reflexivity|]. do 4 (split; [done|]).
    split; [by right|]. do 5 right. exists o. split; [done|]. right. eauto.
  - assert (d = model_flag_required) as ->.
    { unfold check_model in Hck. destruct (negb _); congruence. }
    eexists _, _. split; [reflexivity|]. do 4 (split; [done|]).
    split; [by right|]. do 5 right. exists o. split; [done|]. by left.
Qed.

End build.

(** ** Properties of every run of [main] *)


(** X4. The only changes [main] ever makes to the environment: none as
    long as the compiler has not been run; once it has been run,
    [GCC_EXEC_PREFIX], [COMPILER_PATH] and [LIBRARY_PATH] are unset and
    every other variable is as before, except that when the compiler
    fails, [GCC_OFFLOAD_OMP_REQUIRES_FILE] is left set (it is unset only
    after a compiler that succeeded). *)
Theorem main_environment (h : host) (argv : list string) (st : state) :
  let cleared := delete "LIBRARY_PATH"
                   (delete "COMPILER_PATH"
                      (delete "GCC_EXEC_PREFIX" (env st))) in
  ∃ st' r,
    main h argv st = (st', r)
    ∧ ((spawned st' = spawned st ∧ env st' = env st)
       ∨ (spawned st' ≠ spawned st ∧ r = Ret (-1)%Z
          ∧ env st' = delete "GCC_OFFLOAD_OMP_REQUIRES_FILE" cleared)
       ∨ (spawned st' ≠ spawned st
          ∧ ∃ status value,
              status ≠ 0%Z ∧ r = Fatal (subprocess_failed status)
              ∧ env st' = <["GCC_OFFLOAD_OMP_REQUIRES_FILE" := value]> cleared)).
Proof.
  intros cleared. unfold main.
  destruct (main_checks_outcomes h argv st)
    as (st1 & r1 & H1 & He1 & _ & _ & Hsp1 & _ & Hr1).
  assert ((∀ x, r1 ≠ Ret x)
          ∨ ∃ o driver, r1 = Ret (o, tail (expandargv h (fs st) argv), driver))
    as [Hfail|(o & driver & ->)].
  { destruct Hr1 as [->|[->|[[-> _]|[->|[[-> _]|(o & _ & [[-> _]|(d & -> & _)])]]]]];
      eauto. }
  { exists st1. destruct r1 as [x| | | |]; [by destruct (Hfail x)|..];
      eexists; (split; [unfold mbind, M_bind; by rewrite H1|]); by left. }
  erewrite bind_Ret by exact H1. cbn beta iota.
  destruct (main_build_cases h o (tail (expandargv h (fs st) argv)) driver st1)
    as (st' & r & H2 & _ & _ & _ & Hcase).
  exists st', r. split; [done|].
  destruct Hcase as [(_ & -> & _)|(cfile & _ & Hcase)]; [by left|].
  destruct Hcase as [((He & Hs & _) & _)|[((He & Hs & _) & _)|
    [((He & Hs & _) & _)|(_ & cc_rest & Hs & Hr)]]];
    try (left; split; congruence).
  assert (spawned st' ≠ spawned st) as Hne.
  { rewrite Hs, Hsp1. intros Heq.
    apply (f_equal length) in Heq. rewrite length_app in Heq.
    simpl in Heq. lia. }
  right. destruct Hr as [[-> Henv]|(status & value & ? & -> & Henv)].
  - left. split; [done|]. split; [done|]. subst cleared. by rewrite Henv, He1.
  - right. split; [done|]. exists status, value. split; [done|].
    split; [done|]. subst cleared. by rewrite Henv, He1.
Qed.


Section abi.

Lemma abi_of_none toks a0 :
  Forall (λ t, startswith t "-foffload-abi=" = false) toks →
  abi_of toks a0 = a0.
Proof.
  unfold abi_of. induction 1 as [|t toks Ht _ IH]; [done|].
  cbn [foldl]. unfold abi_step at 2. by rewrite Ht.
Qed.

Lemma has_bad_abi_none args :
  Forall (λ t, startswith t "-foffload-abi=" = false) (option_tokens args) →
  has_bad_abi args = false.
Proof.
  unfold has_bad_abi. induction 1 as [|t toks Ht _ IH]; [done|].
  cbn [existsb]. unfold bad_abi_option at 1. by rewrite Ht.
Qed.

End abi.

(** X6. When no argument in option position is a [-foffload-abi=]
    option, [main] never returns and changes nothing but the exit hooks
    and the probes: no file is created or registered, no subprocess is
    run; and when the checks of the first half pass, the run ends on
    [gcc_unreachable] in the switch on the ABI. *)
Theorem missing_abi_aborts (h : host) (argv : list string) (st : state) :
  let args := tail (expandargv h (fs st) argv) in
  Forall (λ t, startswith t "-foffload-abi=" = false) (option_tokens args) →
  ∃ st' r,
    main h argv st = (st', r)
    ∧ (∀ v, r ≠ Ret v)
    ∧ env st' = env st ∧ fs st' = fs st
    ∧ files_to_cleanup st' = files_to_cleanup st
    ∧ spawned st' = spawned st
    ∧ (∀ st1 x, main_checks h argv st = (st1, Ret x) → r = Abort).
Proof.
  intros args Hnone. unfold main.
  destruct (main_checks_outcomes h argv st)
    as (st1 & r1 & H1 & He1 & Hfs1 & Hf1 & Hsp1 & _ & Hr1).
  fold args in Hr1.
  assert ((∀ x, r1 ≠ Ret x)
          ∨ ∃ o driver, r1 = Ret (o, args, driver)
                        ∧ scan_args args initial_options = Ret o)
    as [Hfail|(o & driver & -> & Hscan)].
  { destruct Hr1 as [->|[->|[[-> _]|[->|[[-> _]|(o & ? & [[-> _]|(d & -> & _)])]]]]];
      eauto. }
  { exists st1. destruct r1 as [x| | | |]; [by destruct (Hfail x)|..];
      eexists; (split; [unfold mbind, M_bind; by rewrite H1|]);
      repeat split; try done; intros ? ? He; rewrite H1 in He; done. }
  pose proof (scan_args_full (length args) args initial_options (le_n _)) as Hfull.
  rewrite (has_bad_abi_none args Hnone) in Hfull.
  destruct Hfull as (o' & Hscan' & Hpost).
  assert (o' = o) as -> by congruence.
  destruct Hpost as (_ & _ & _ & _ & _ & _ & Habi).
  rewrite (abi_of_none _ _ Hnone) in Habi. cbn in Habi.
  erewrite bind_Ret by exact H1. cbn beta iota.
  destruct (main_build_cases h o args driver st1)
    as (st' & r & H2 & _ & _ & _ & Hcase).
  destruct Hcase as [(_ & -> & ->)|(cfile & _ & Hcase)].
  - exists st1, Abort. repeat split; done.
  - exfalso.
    destruct Hcase as [(Q & -> & _)|[(_ & ? & _)|[(_ & ? & _)|(? & _)]]];
      try congruence.
    unfold main_build in H2. rewrite Habi in H2. done.
Qed.

Lemma missing_abi_aborts_witness :
  ∃ st',
    main (Sample.the_host true 0) ["mkoffload"; "-fopenmp"; "in.o"]
      Sample.the_state = (st', Abort)
    ∧ fs st' = Sample.the_fs ∧ files_to_cleanup st' = [] ∧ spawned st' = [].
Proof.
  destruct (missing_abi_aborts (Sample.the_host true 0)
              ["mkoffload"; "-fopenmp"; "in.o"] Sample.the_state)
    as (st' & r & Hm & _ & _ & Hfs & Hf & Hsp & Hr).
  { repeat constructor. }
  exists st'.
  assert (r = Abort) as ->.
  { eapply Hr. by vm_compute. }
  done.
Defined.

(** X7. When the ABI selected by the options is [ilp32], [main] runs no
    subprocess and leaves the environment as it was; when it returns,
    it returns -1 having registered one path, that of the C file it has
    created. *)
Theorem ilp32_runs_nothing (h : host) (argv : list string) (st : state) :
  let args := tail (expandargv h (fs st) argv) in
  has_bad_abi args = false →
  abi_of (option_tokens args) OFFLOAD_ABI_UNSET = OFFLOAD_ABI_ILP32 →
  ∃ st' r,
    main h argv st = (st', r)
    ∧ spawned st' = spawned st
    ∧ env st' = env st
    ∧ (∀ v, r = Ret v →
         v = (-1)%Z
         ∧ ∃ gcn_cfile_name,
             files_to_cleanup st'
             = files_to_cleanup st ++ [Str gcn_cfile_name]).
Proof.
  intros args Hbad Hilp. unfold main.
  destruct (main_checks_outcomes h argv st)
    as (st1 & r1 & H1 & He1 & Hfs1 & Hf1 & Hsp1 & _ & Hr1).
  fold args in Hr1.
  assert ((∀ x, r1 ≠ Ret x)
          ∨ ∃ o driver, r1 = Ret (o, args, driver)
                        ∧ scan_args args initial_options = Ret o)
    as [Hfail|(o & driver & -> & Hscan)].
  { destruct Hr1 as [->|[->|[[-> _]|[->|[[-> _]|(o & ? & [[-> _]|(d & -> & _)])]]]]];
      eauto. }
  { exists st1. destruct r1 as [x| | | |]; [by destruct (Hfail x)|..];
      eexists; (split; [unfold mbind, M_bind; by rewrite H1|]);
      repeat split; done. }
  pose proof (scan_args_full (length args) args initial_options (le_n _)) as Hfull.
  rewrite Hbad in Hfull. destruct Hfull as (o' & Hscan' & Hpost).
  assert (o' = o) as -> by congruence.
  destruct Hpost as (_ & _ & _ & _ & _ & _ & Habi).
  change (offload_abi initial_options) with OFFLOAD_ABI_UNSET in Habi.
  rewrite Hilp in Habi.
  erewrite bind_Ret by exact H1. cbn beta iota.
  destruct (main_build_cases h o args driver st1)
    as (st' & r & H2 & _ & _ & _ & Hcase).
  exists st', r. split; [done|].
  destruct Hcase as [(? & _)|(cfile & _ & Hcase)]; [congruence|].
  destruct Hcase as [((He & Hs & _) & -> & _)|[((He & Hs & _) & _ & -> & Hf)|
    [(_ & ? & _)|(? & _)]]]; try congruence.
  - repeat split; try congruence; done.
  - split; [congruence|]. split; [congruence|].
    intros v [= <-]. split; [done|]. exists cfile. congruence.
Qed.

Lemma ilp32_runs_nothing_witness :
  ∃ st',
    main (Sample.the_host true 0)
      ["mkoffload"; "-foffload-abi=ilp32"; "-fopenmp"; "in.o"; "-o"; "out.img"]
      Sample.the_state = (st', Ret (-1)%Z)
    ∧ spawned st' = [] ∧ env st' = Sample.the_env
    ∧ files_to_cleanup st' = [Str "/tmp/cc2.c"].
Proof.
  destruct (ilp32_runs_nothing (Sample.the_host true 0)
              ["mkoffload"; "-foffload-abi=ilp32"; "-fopenmp"; "in.o";
               "-o"; "out.img"] Sample.the_state)
    as (st' & r & Hm & Hsp & He & Hr); [by vm_compute..|].
  exists st'.
  assert (st' = (main (Sample.the_host true 0)
      ["mkoffload"; "-foffload-abi=ilp32"; "-fopenmp"; "in.o"; "-o"; "out.img"]
      Sample.the_state).1) as Hst by (by rewrite Hm).
  assert (r = (main (Sample.the_host true 0)
      ["mkoffload"; "-foffload-abi=ilp32"; "-fopenmp"; "in.o"; "-o"; "out.img"]
      Sample.the_state).2) as Hrr by (by rewrite Hm).
  vm_compute in Hrr. subst r. split; [done|].
  split; [done|]. split; [done|]. rewrite Hst. by vm_compute.
Defined.

(** ** The linker's arguments *)



(** ** The locator at its edges *)

Section locator_edges.

Variable h : host.

Lemma locate_driver_miss collect_gcc gcc_path cp st :
  let sibling := gcc_path +:+ "/" +:+ GCC_INSTALL_NAME h in
  gcc_path_of h collect_gcc = Some gcc_path →
  access_check (fs st) sibling X_OK ≠ 0%Z →
  env st !! "COMPILER_PATH" = Some cp →
  NUL ∉ list_ascii_of_string cp →
  Forall (λ d, access_check (fs st) (candidate h d) X_OK ≠ 0%Z)
    (split_colon (list_ascii_of_string cp)) →
  locate_driver h collect_gcc st
  = (set_probes
       (λ l, l ++ sibling
               :: (candidate h <$> split_colon (list_ascii_of_string cp)))
       st,
     Ret None).
Proof.
  intros sibling Hg Hsib Hcp Hn Hall.
  unfold locate_driver. rewrite Hg.
  erewrite bind_Ret by apply access_checkM_probe.
  fold sibling. rewrite decide_False by done.
  unfold getenv, gets. unfold mbind at 1, M_bind at 1.
  cbn [env set_probes]. rewrite Hcp.
  rewrite split_colon_take by done. rewrite firstn_all.
  rewrite search_paths_miss.
  - by rewrite set_probes_app.
  - eapply Forall_impl; [exact Hall|]. cbn [fs set_probes].
    intros d Hd. destruct (acceptable (fs st) (candidate h d)) eqn:E; [|done].
    by apply access_check_acceptable in E.
Qed.

Lemma locate_driver_null collect_gcc gcc_path st :
  let sibling := gcc_path +:+ "/" +:+ GCC_INSTALL_NAME h in
  gcc_path_of h collect_gcc = Some gcc_path →
  access_check (fs st) sibling X_OK ≠ 0%Z →
  env st !! "COMPILER_PATH" = None →
  locate_driver h collect_gcc st
  = (set_probes (λ l, l ++ [sibling]) st, Segv).
Proof.
  intros sibling Hg Hsib Hcp.
  unfold locate_driver. rewrite Hg.
  erewrite bind_Ret by apply access_checkM_probe.
  fold sibling. rewrite decide_False by done.
  unfold getenv, gets. unfold mbind at 1, M_bind at 1.
  cbn [env set_probes]. by rewrite Hcp.
Qed.

Lemma main_at_locator argv collect_gcc st st1 (r : result (option string)) :
  atexit h = 0%Z →
  env st !! "COLLECT_GCC" = Some collect_gcc →
  locate_driver h collect_gcc (set_exit_hooks (λ l, l ++ [true]) st)
  = (st1, r) →
  match r with
  | Ret None => main h argv st = (st1, Fatal compiler_not_found)
  | Segv => main h argv st = (st1, Segv)
  | _ => True
  end.
Proof.
  intros Hat Hc Hl. unfold main, main_checks.
  rewrite decide_True by done.
  unfold modify, getenv, gets. unfold mbind, M_bind.
  cbn [env set_exit_hooks]. rewrite Hc, Hl.
  by destruct r as [[?|]| | | |].
Qed.

End locator_edges.

(** X9. When the reference compiler has a directory part, the offload
    compiler is not executable beside it, and no directory of
    [COMPILER_PATH] holds an acceptable candidate, [main] ends in the
    diagnostic "offload compiler not found" after probing the sibling
    and then every directory of the search path once, in order; nothing
    else has changed but the exit hook. *)
Theorem compiler_not_found_is_fatal (h : host) (argv : list string)
    (st : state) (collect_gcc gcc_path cp : string) :
  let sibling := gcc_path +:+ "/" +:+ GCC_INSTALL_NAME h in
  atexit h = 0%Z →
  env st !! "COLLECT_GCC" = Some collect_gcc →
  gcc_path_of h collect_gcc = Some gcc_path →
  access_check (fs st) sibling X_OK ≠ 0%Z →
  env st !! "COMPILER_PATH" = Some cp →
  NUL ∉ list_ascii_of_string cp →
  Forall (λ d, access_check (fs st) (candidate h d) X_OK ≠ 0%Z)
    (split_colon (list_ascii_of_string cp)) →
  main h argv st
  = (set_probes
       (λ l, l ++ sibling
               :: (candidate h <$> split_colon (list_ascii_of_string cp)))
       (set_exit_hooks (λ l, l ++ [true]) st),
     Fatal compiler_not_found).
Proof.
  intros sibling Hat Hc Hg Hsib Hcp Hn Hall.
  apply (main_at_locator h argv collect_gcc st _ (Ret None) Hat Hc).
  by apply locate_driver_miss.
Qed.

(** X10. When the reference compiler has a directory part, the offload
    compiler is not executable beside it, and [COMPILER_PATH] is not
    set, [parse_env_var] is handed the null pointer that [getenv]
    returns: the run ends there, on the dereference, with no diagnostic,
    after the one probe of the sibling. *)
Theorem unset_compiler_path_crashes (h : host) (argv : list string)
    (st : state) (collect_gcc gcc_path : string) :
  let sibling := gcc_path +:+ "/" +:+ GCC_INSTALL_NAME h in
  atexit h = 0%Z →
  env st !! "COLLECT_GCC" = Some collect_gcc →
  gcc_path_of h collect_gcc = Some gcc_path →
  access_check (fs st) sibling X_OK ≠ 0%Z →
  env st !! "COMPILER_PATH" = None →
  main h argv st
  = (set_probes (λ l, l ++ [sibling]) (set_exit_hooks (λ l, l ++ [true]) st),
     Segv)
  ∧ exit_status (main h argv st).2 = None.
Proof.
  intros sibling Hat Hc Hg Hsib Hcp.
  assert (main h argv st
          = (set_probes (λ l, l ++ [sibling])
               (set_exit_hooks (λ l, l ++ [true]) st), Segv)) as Hm.
  { apply (main_at_locator h argv collect_gcc st _ Segv Hat Hc).
    by apply locate_driver_null. }
  split; [done|]. by rewrite Hm.
Qed.

(** ** The walk over the relocation records *)

Section walk.

Local Open Scope Z_scope.





End walk.



(** X12. Once the debug sections have been copied and the output is
    opened again with its header read back, a value of [e_machine]
    other than [EM_X86_64] stops the program on the assertion: the
    extractor does not return, and the copied output stays on disk. *)
Theorem wrong_machine_aborts (h : host) (infile outfile : string)
    (fsys fs1 : gmap string node) (p : perms) (inobj out : list byte) :
  open_rdonly fsys infile = Some (Reg p inobj) →
  simple_object_start_read h inobj = true →
  simple_object_find_section h inobj debug_info_section = 1%Z →
  simple_object_copy_lto_debug_sections h inobj outfile fsys = (fs1, None) →
  fopen_update fs1 outfile = Some out →
  header_read out = true →
  e_machine (output_header out) ≠ EM_X86_64 →
  copy_early_debug_info h infile outfile fsys = (fs1, Abort, [])
  ∧ fopen_update (copy_early_debug_info h infile outfile fsys).1.1 outfile
    = Some out.
Proof.
  intros Ho Hs Hf Hc Hout Hh Hm.
  rewrite (copy_early_debug_info_copied _ _ _ _ _ _ _ Ho Hs Hf Hc).
  by rewrite (adjust_output_wrong_machine _ _ _ Hout Hh Hm).
Qed.

Lemma wrong_machine_aborts_witness :
  copy_early_debug_info (Sample.the_host true 0) "rv.o" "out.o"
    Sample.truncated_fs
  = (<["out.o" := Reg rw_perms Sample.riscv_truncated_object]>
       Sample.truncated_fs, Abort, []).
Proof.
  apply (wrong_machine_aborts (Sample.the_host true 0) "rv.o" "out.o"
           Sample.truncated_fs _ rw_perms Sample.riscv_truncated_object
           Sample.riscv_truncated_object); by vm_compute.
Defined.

(** ** Search paths joined *)

Lemma split_colon_app (s1 s2 : list ascii) :
  split_colon (s1 ++ colon :: s2) = split_colon s1 ++ split_colon s2.
Proof.
  induction s1 as [|c s1 IH]; cbn [app split_colon].
  - by rewrite decide_True.
  - rewrite IH. case_decide; [done|].
    pose proof (split_colon_nonempty s1).
    by destruct (split_colon s1).
Qed.

(** X13. Parsing two search paths joined by a colon gives the fields of
    the first followed by the fields of the second, and as many fields
    as the two together. *)
Theorem parse_env_var_joined (s1 s2 : list ascii) (rest : list ascii) :
  NUL ∉ s1 → NUL ∉ s2 →
  ∃ n1 n2 v1 v2,
    parse_env_var (s1 ++ NUL :: rest) = Some (n1, v1)
    ∧ parse_env_var (s2 ++ NUL :: rest) = Some (n2, v2)
    ∧ parse_env_var ((s1 ++ colon :: s2) ++ NUL :: rest)
      = Some (n1 + n2, v1 ++ v2).
Proof.
  intros H1 H2.
  exists (length (split_colon s1)), (length (split_colon s2)),
    (split_colon s1), (split_colon s2).
  rewrite !parse_env_var_split; try done.
  - by rewrite split_colon_app, length_app.
  - rewrite not_elem_of_app, not_elem_of_cons. done.
Qed.

Lemma parse_env_var_joined_witness :
  parse_env_var (c_str (list_ascii_of_string "/opt/a:/opt/b:/usr/bin"))
  = Some (3, list_ascii_of_string <$> ["/opt/a"; "/opt/b"; "/usr/bin"]).
Proof.
  destruct (parse_env_var_joined (list_ascii_of_string "/opt/a:/opt/b")
              (list_ascii_of_string "/usr/bin") [])
    as (n1 & n2 & v1 & v2 & Hp1 & Hp2 & Hp).
  - apply (bool_decide_unpack _). by vm_compute.
  - apply (bool_decide_unpack _). by vm_compute.
  - vm_compute in Hp1. vm_compute in Hp2.
    injection Hp1 as <- <-. injection Hp2 as <- <-. exact Hp.
Defined.

(** ** Names under [-save-temps] *)

Section save_temps.

Variable h : host.
Variable f : string → gmap string node → string * gmap string node.

Lemma bind_ext {A B} (m m' : M A) (k k' : A → M B) st :
  m st = m' st → (∀ a st1, k a st1 = k' a st1) →
  (m ≫= k) st = (m' ≫= k') st.
Proof.
  intros Hm Hk. unfold mbind, M_bind. rewrite Hm.
  destruct (m' st) as [st1 [a| | | |]]; auto.
Qed.

Lemma temp_name_fixed o fixed suffix st :
  save_temps o = true →
  temp_name (with_make_temp_file f h) o fixed suffix st
  = temp_name h o fixed suffix st.
Proof. intros Hs. unfold temp_name. by rewrite Hs. Qed.

Lemma debug_object_fixed o a dbgcount ld_argv st :
  save_temps o = true →
  debug_object (with_make_temp_file f h) o a dbgcount ld_argv st
  = debug_object h o a dbgcount ld_argv st.
Proof. intros Hs. unfold debug_object. by rewrite Hs. Qed.

Lemma debug_objects_fixed_n (n : nat) o :
  save_temps o = true →
  ∀ args dbgcount ld_argv st, (length args ≤ n)%nat →
    debug_objects (with_make_temp_file f h) o args dbgcount ld_argv st
    = debug_objects h o args dbgcount ld_argv st.
Proof.
  intros Hs. induction n as [|n IH]; intros args dbgcount ld_argv st Hlen.
  { destruct args; [done|simpl in Hlen; lia]. }
  destruct args as [|a rest]; [done|].
  cbn [length] in Hlen. cbn [debug_objects].
  assert (∀ dbgcount ld_argv st,
    (debug_object (with_make_temp_file f h) o a dbgcount ld_argv
       ≫= λ '(dbgcount', ld_argv'),
             debug_objects (with_make_temp_file f h) o rest dbgcount' ld_argv')
      st
    = (debug_object h o a dbgcount ld_argv
         ≫= λ '(dbgcount', ld_argv'),
               debug_objects h o rest dbgcount' ld_argv') st) as Hstep.
  { intros. apply bind_ext; [by apply debug_object_fixed|].
    intros [n1 ld1] st1. apply IH. lia. }
  destruct (decide (a = "-o")); [|apply Hstep].
  destruct rest as [|out rest']; [apply Hstep|].
  cbn [length] in Hlen. apply IH. lia.
Qed.

Lemma main_lp64_fixed o args driver cc_argv0 st :
  save_temps o = true →
  main_lp64 (with_make_temp_file f h) o args driver cc_argv0 st
  = main_lp64 h o args driver cc_argv0 st.
Proof.
  intros Hs. unfold main_lp64.
  repeat (apply bind_ext;
          [first [ by apply temp_name_fixed
                 | by apply (debug_objects_fixed_n (length args))
                 | reflexivity ]
          | intros ? ?]).
  reflexivity.
Qed.

Lemma main_build_fixed o args driver st :
  save_temps o = true →
  main_build (with_make_temp_file f h) o args driver st
  = main_build h o args driver st.
Proof.
  intros Hs. unfold main_build.
  apply bind_ext; [done|]. intros abi st1.
  destruct (cc_passthrough args None) as [passed outname].
  set (o' := match dumppfx o with Some _ => o | None => set_dumppfx outname o end).
  assert (save_temps o' = true) as Hs'
    by (subst o'; by destruct (dumppfx o)).
  apply bind_ext; [by apply temp_name_fixed|]. intros cfile st2.
  apply bind_ext; [done|]. intros [] st3.
  apply bind_ext; [done|]. intros [fs'|] st4; [|done].
  apply bind_ext; [done|]. intros [] st5.
  apply bind_ext; [|done].
  case_decide; [|done].
  apply bind_ext; [by apply main_lp64_fixed|done].
Qed.

Lemma search_paths_fixed paths st :
  search_paths (with_make_temp_file f h) paths st = search_paths h paths st.
Proof.
  revert st. induction paths as [|d paths IH]; intros st; [done|].
  cbn [search_paths]. apply bind_ext; [done|]. intros r st1.
  case_decide; [done|apply IH].
Qed.

Lemma main_checks_fixed argv st :
  main_checks (with_make_temp_file f h) argv st = main_checks h argv st.
Proof.
  unfold main_checks.
  apply bind_ext; [done|]. intros [] st1.
  apply bind_ext; [done|]. intros [collect_gcc|] st2; [|done].
  apply bind_ext; [|done].
  unfold locate_driver.
  change (gcc_path_of (with_make_temp_file f h) collect_gcc)
    with (gcc_path_of h collect_gcc).
  destruct (gcc_path_of h collect_gcc) as [gcc_path|]; [|done].
  apply bind_ext; [done|]. intros r st3. case_decide; [done|].
  apply bind_ext; [done|]. intros [cp|] st4; [|done].
  destruct (parse_env_var _) as [[n paths]|]; [|done].
  apply search_paths_fixed.
Qed.

End save_temps.

(** X14. Under [-save-temps] no temporary name is asked for: the whole
    run of [main] is the same whatever [make_temp_file] would return;
    the names of the intermediate files come from the dump prefix
    alone. *)
Theorem save_temps_names_are_fixed (h : host)
    (f : string → gmap string node → string * gmap string node)
    (argv : list string) (st : state) :
  given "-save-temps" (tail (expandargv h (fs st) argv)) = true →
  main (with_make_temp_file f h) argv st = main h argv st.
Proof.
  intros Hgiven. unfold main.
  unfold mbind, M_bind. rewrite main_checks_fixed.
  destruct (main_checks_outcomes h argv st)
    as (st1 & r1 & H1 & _ & _ & _ & _ & _ & Hr1).
  rewrite H1.
  destruct r1 as [[[o args] driver]| | | |]; try done.
  apply main_build_fixed.
  destruct Hr1 as [?|[?|[[? _]|[?|[[? _]|(o' & Hscan & [[? _]|(d & Heq & _)])]]]]];
    try done.
  injection Heq as -> -> ->.
  pose proof (scan_args_full _ _ initial_options (le_n (length
    (tail (expandargv h (fs st) argv))))) as Hfull.
  destruct (has_bad_abi _); [congruence|].
  destruct Hfull as (o & Ho & Hpost).
  assert (o = o') as -> by congruence.
  destruct Hpost as (_ & _ & _ & _ & Hsave & _). by rewrite Hsave, Hgiven.
Qed.

Lemma save_temps_names_are_fixed_witness :
  main (with_make_temp_file other_temp_file (Sample.the_host true 0))
    save_temps_argv Sample.the_state
  = main (Sample.the_host true 0) save_temps_argv Sample.the_state
  ∧ files_to_cleanup
      (main (Sample.the_host true 0) save_temps_argv Sample.the_state).1
    = [Str "out.img.c"; Str "out.img.mkoffload.1.s";
       Str "out.img.mkoffload.2.s"; Indet; Str "out.img.mkoffload.dbg0.o";
       Str "out.img.mkoffload.dbg0.o"; Str "out.img.mkoffload.omp_requires"].
Proof.
  split; [|by vm_compute].
  apply (save_temps_names_are_fixed (Sample.the_host true 0) other_temp_file
           save_temps_argv Sample.the_state).
  by vm_compute.
Defined.

Lemma compiler_not_found_is_fatal_witness :
  main (Sample.the_host true 0) Sample.the_argv lost_state
  = (set_probes
       (λ l, l ++ ["/usr/bin/riscv32-unknown-elf-gcc";
                   "/opt/a/riscv32-unknown-elf-gcc";
                   "/opt/b/riscv32-unknown-elf-gcc"])
       (set_exit_hooks (λ l, l ++ [true]) lost_state),
     Fatal compiler_not_found).
Proof.
  apply (compiler_not_found_is_fatal (Sample.the_host true 0) Sample.the_argv
           lost_state "/usr/bin/gcc" "/usr/bin" "/opt/a:/opt/b").
  - done.
  - by vm_compute.
  - by vm_compute.
  - by vm_compute.
  - by vm_compute.
  - apply (bool_decide_unpack _). by vm_compute.
  - repeat constructor; by vm_compute.
Defined.

Lemma unset_compiler_path_crashes_witness :
  main (Sample.the_host true 0) Sample.the_argv no_path_state
  = (set_probes (λ l, l ++ ["/usr/bin/riscv32-unknown-elf-gcc"])
       (set_exit_hooks (λ l, l ++ [true]) no_path_state),
     Segv)
  ∧ exit_status
      (main (Sample.the_host true 0) Sample.the_argv no_path_state).2 = None.
Proof.
  apply (unset_compiler_path_crashes (Sample.the_host true 0) Sample.the_argv
           no_path_state "/usr/bin/gcc" "/usr/bin").
  - done.
  - by vm_compute.
  - by vm_compute.
  - by vm_compute.
  - by vm_compute.
Defined.

(** ** Which arguments are objects *)

Lemma debug_objects_none_n (h : host) (o : options) (n : nat) :
  ∀ args outname dbgcount ld_argv st, (length args ≤ n)%nat →
    (∀ a, Str a ∈ (cc_passthrough args outname).1 → is_dot_o a = false) →
    debug_objects h o args dbgcount ld_argv st = (st, Ret ld_argv).
Proof.
  induction n as [|n IH]; intros args outname dbgcount ld_argv st Hlen Hall.
  { destruct args; [done|simpl in Hlen; lia]. }
  destruct args as [|a rest]; [done|].
  cbn [length] in Hlen. cbn [debug_objects cc_passthrough] in *.
  assert ((∀ b, Str b ∈ Str a :: (cc_passthrough rest outname).1 →
                is_dot_o b = false) →
          (debug_object h o a dbgcount ld_argv
             ≫= λ '(dbgcount', ld_argv'),
                   debug_objects h o rest dbgcount' ld_argv') st
          = (st, Ret ld_argv)) as Hstep.
  { intros Hb. unfold debug_object.
    rewrite (Hb a) by (rewrite elem_of_cons; by left).
    erewrite bind_Ret by reflexivity. cbn beta iota.
    apply (IH rest outname); [lia|].
    intros b Hin. apply Hb. rewrite elem_of_cons. by right. }
  destruct (decide (a = "-o")) as [->|?].
  - destruct rest as [|out rest'].
    + apply Hstep. intros b Hb. apply Hall.
      by destruct (cc_passthrough [] outname).
    + cbn [length] in Hlen. apply (IH rest' (Some out)); [lia|done].
  - apply Hstep. intros b Hb. apply Hall.
    by destruct (cc_passthrough rest outname).
Qed.

(** X15. The loop over the objects skips [-o] and its operand exactly
    as the loop that hands the arguments to the compiler does: when
    none of the arguments passed on to the compiler ends in [.o], no
    debug object is named, registered or extracted, whatever the
    operands of [-o] look like; the state and the linker's arguments
    are left as they were. *)
Theorem no_objects_no_extraction (h : host) (o : options)
    (args : list string) (dbgcount : nat) (ld_argv : list arg) (st : state) :
  (∀ a, Str a ∈ (cc_passthrough args None).1 → is_dot_o a = false) →
  debug_objects h o args dbgcount ld_argv st = (st, Ret ld_argv).
Proof. by apply (debug_objects_none_n h o (length args) args None). Qed.

Lemma no_objects_no_extraction_witness :
  debug_objects (Sample.the_host true 0) initial_options
    ["-fopenmp"; "-o"; "out.o"; "in.c"] 0 [Str "gcc"] Sample.the_state
  = (Sample.the_state, Ret [Str "gcc"]).
Proof.
  apply (no_objects_no_extraction (Sample.the_host true 0) initial_options
           ["-fopenmp"; "-o"; "out.o"; "in.c"] 0 [Str "gcc"] Sample.the_state).
  intros a Ha. cbn in Ha.
  apply elem_of_cons in Ha as [[= ->]|Ha]; [done|].
  apply list_elem_of_singleton in Ha as [= ->]. done.
Defined.

